(** * Speech analysis pipeline: prosody, fluency and the session hook

    A shallow embedding of
      - [src/lib/prosodyAnalyzer.ts]   ([analyzeProsody]),
      - [src/lib/fluencyCalculator.ts] ([calculateFluency]),
      - [src/hooks/useAdvancedSpeechAnalysis] ([stop], [recognition.onerror]),
    and the properties of them that the specification states.

    Numbers.  A JavaScript [number] is an IEEE 754 double.  The pipeline
    is embedded over the exact rationals [Q], which idealise the doubles:
    what is proved over them are the properties of order and of range,
    which the rounding of the doubles keeps, and never the last digit of a
    computed value.  Where a property is about the very value the code
    computes, the code is embedded a second time over the doubles
    themselves (module [Doubles], on the binary64 numbers of the kernel).
    Array lengths are [nat] and are injected into the numbers where the
    code uses them in arithmetic. *)

From Stdlib Require Import String Ascii.
From Stdlib Require Import List Bool Arith ZArith QArith Qround Qabs.
From Stdlib Require Import Floats.
From Stdlib Require Import Lia Lqa.
Import ListNotations.

Local Open Scope Q_scope.

(** ** The JavaScript built-ins the code uses *)

Module JS.

(** [a < b] on numbers. *)
Definition Qltb (a b : Q) : bool := negb (Qle_bool b a).

(** [Math.min(a, b)] and [Math.max(a, b)]. *)
Definition Math_min (a b : Q) : Q := if Qle_bool a b then a else b.
Definition Math_max (a b : Q) : Q := if Qle_bool a b then b else a.

(** [Math.round(x)] of an exact value: the nearest integer, halves going
    up.  The code rounds a double, which next to a half can lie on the
    other side of it than the exact value ([Doubles.Math_round] is the
    rounding of the double itself). *)
Definition Math_round (x : Q) : Z := Qfloor (x + (1 # 2)).

(** [Math.abs(x)]. *)
Definition Math_abs (x : Q) : Q := Qabs x.

(** An array length used as a number. *)
Definition num (n : nat) : Q := inject_Z (Z.of_nat n).

(** [a.slice(s, e)] for [0 <= s], [0 <= e]. *)
Definition slice {A : Type} (l : list A) (s e : nat) : list A :=
  skipn s (firstn e l).

(** [a / b] where the quotient is a number only for a divisor that is
    not zero: [None] stands for the [NaN] or infinity JavaScript would
    produce. *)
Definition div (a b : Q) : option Q :=
  if Qeq_bool b 0 then None else Some (a / b).

End JS.

Import JS.

(** ** Data model ([audioFeatureExtractor], [prosodyAnalyzer]) *)

Record AudioFrame : Type := mkFrame {
  timestamp : Q;
  rms : Q;
  pitch : Q;
  isSilent : bool
}.

Record PitchRange : Type := mkPitchRange { pmin : Q; pmax : Q }.

Record AudioAnalysisResult : Type := mkAudio {
  frames : list AudioFrame;
  pitchRange : PitchRange;
  averagePitch : Q;
  totalDuration : Q;
  silenceRatio : Q
}.

Inductive IntonationType : Type := rising | falling | level.

Inductive SpeakingRate : Type := slow | normal | fast.

Record IntonationEvent : Type := mkIntonation {
  ie_timestamp : Q;
  ie_type : IntonationType;
  magnitude : Q
}.

Record StressEvent : Type := mkStress {
  se_timestamp : Q;
  intensity : Q
}.

Record ProsodyMetrics : Type := mkProsody {
  pitchVariation : Q;
  stressEventCount : Q;
  averagePauseDuration : Q;
  pauseCount : Q;
  longPauseCount : Q;
  speakingRate : SpeakingRate;
  intonationPatterns : list IntonationEvent;
  rhythmConsistency : Q
}.

(** An entry of the local [pauses] array of [analyzeProsody]. *)
Record Pause : Type := mkPause {
  p_start : Q;
  p_end : Q;
  duration : Q
}.

Definition PAUSE_THRESHOLD_MS : Q := 500.
Definition LONG_PAUSE_THRESHOLD_MS : Q := 1500.

Definition createEmptyProsodyMetrics : ProsodyMetrics :=
  {| pitchVariation := 0;
     stressEventCount := 0;
     averagePauseDuration := 0;
     pauseCount := 0;
     longPauseCount := 0;
     speakingRate := normal;
     intonationPatterns := [];
     rhythmConsistency := 50 |}.

(** ** Pause detection (prosodyAnalyzer.ts, lines 44-77) *)

(** The [for] loop over the frames: the state is [pauseStart] and the
    [pauses] pushed so far. *)
Fixpoint scanPauses (fs : list AudioFrame) (pauseStart : option Q)
    (pauses : list Pause) : option Q * list Pause :=
  match fs with
  | [] => (pauseStart, pauses)
  | f :: rest =>
      if isSilent f then
        match pauseStart with
        | None => scanPauses rest (Some (timestamp f)) pauses
        | Some _ => scanPauses rest pauseStart pauses
        end
      else
        match pauseStart with
        | Some s =>
            let d := timestamp f - s in
            scanPauses rest None
              (if Qle_bool PAUSE_THRESHOLD_MS d
               then pauses ++ [mkPause s (timestamp f) d]
               else pauses)
        | None => scanPauses rest None pauses
        end
  end.

(** The trailing pause: measured up to the timestamp of the last frame. *)
Definition trailingPause (fs : list AudioFrame) (pauseStart : option Q)
    (pauses : list Pause) : list Pause :=
  match pauseStart, fs with
  | Some s, f0 :: _ =>
      let lastFrame := last fs f0 in
      let d := timestamp lastFrame - s in
      if Qle_bool PAUSE_THRESHOLD_MS d
      then pauses ++ [mkPause s (timestamp lastFrame) d]
      else pauses
  | _, _ => pauses
  end.

(** The array [pauses] after both steps. *)
Definition detectPauses (fs : list AudioFrame) : list Pause :=
  let '(pauseStart, pauses) := scanPauses fs None [] in
  trailingPause fs pauseStart pauses.

Definition longPauses (pauses : list Pause) : list Pause :=
  filter (fun p => Qle_bool LONG_PAUSE_THRESHOLD_MS (duration p)) pauses.

(** ** Stress events (lines 79-97) *)

(** The loop [for (i = 1; i < frames.length - 1; i++)] visits every frame
    that has both neighbours; on a list this is a scan of the consecutive
    triples [prev, current, next].  When the average is zero the quotient
    of the source is an infinity, which [Math.min] cuts to 100. *)
Fixpoint scanStress (avgRms : Q) (fs : list AudioFrame) : list StressEvent :=
  match fs with
  | prev :: ((current :: next :: _) as tl) =>
      (if negb (isSilent current)
          && Qltb (rms prev) (rms current)
          && Qltb (rms next) (rms current)
          && Qltb (avgRms * (3 # 2)) (rms current)
       then [mkStress (timestamp current)
               (if Qeq_bool avgRms 0 then 100
                else Math_min 100 (rms current / avgRms * 50))]
       else [])
      ++ scanStress avgRms tl
  | _ => []
  end.

(** ** Intonation patterns (lines 99-126) *)

Definition windowSize : nat := 5.

Definition classify (relativeDiff : Q) : IntonationType :=
  if Qltb 10 relativeDiff then rising
  else if Qltb relativeDiff (-10) then falling
  else level.

(** The body of the loop at index [i], where [fi] is [frames[i]]: the
    event pushed, or [None] when the iteration ends with [continue]. *)
Definition intonationAt (fs : list AudioFrame) (i : nat) (fi : AudioFrame)
    : option IntonationEvent :=
  let window :=
    filter (fun f => negb (isSilent f)) (slice fs (i - windowSize) i) in
  match window with
  | w0 :: _ =>
      if (length window <? 3)%nat then None
      else
        let startPitch := pitch w0 in
        let endPitch := pitch (last window w0) in
        let diff := endPitch - startPitch in
        let relativeDiff :=
          if Qltb 0 startPitch then diff / startPitch * 100 else 0 in
        Some (mkIntonation (timestamp fi) (classify relativeDiff)
                           (Math_abs relativeDiff))
  | [] => None
  end.

(** The loop [for (i = windowSize; i < frames.length; i += windowSize)].
    [fuel] bounds the number of iterations; [frames[i]] is defined exactly
    when [i < frames.length]. *)
Fixpoint intonationLoop (fuel : nat) (fs : list AudioFrame) (i : nat)
    (acc : list IntonationEvent) : list IntonationEvent :=
  match fuel with
  | O => acc
  | S fuel' =>
      match nth_error fs i with
      | None => acc
      | Some fi =>
          intonationLoop fuel' fs (i + windowSize)
            (match intonationAt fs i fi with
             | Some e => acc ++ [e]
             | None => acc
             end)
      end
  end.

(** One unit of fuel per frame is more than the loop can use. *)
Definition detectIntonation (fs : list AudioFrame) : list IntonationEvent :=
  intonationLoop (length fs) fs windowSize [].

(** ** Rhythm consistency (lines 128-155) *)

Fixpoint scanSegments (fs : list AudioFrame) (segmentStart : option Q)
    (segments : list Q) : option Q * list Q :=
  match fs with
  | [] => (segmentStart, segments)
  | f :: rest =>
      if negb (isSilent f) then
        match segmentStart with
        | None => scanSegments rest (Some (timestamp f)) segments
        | Some _ => scanSegments rest segmentStart segments
        end
      else
        match segmentStart with
        | Some s => scanSegments rest None (segments ++ [timestamp f - s])
        | None => scanSegments rest None segments
        end
  end.

Definition detectSegments (fs : list AudioFrame) : list Q :=
  let '(segmentStart, segments) := scanSegments fs None [] in
  match segmentStart, fs with
  | Some s, f0 :: _ => segments ++ [timestamp (last fs f0) - s]
  | _, _ => segments
  end.

Definition sumQ (l : list Q) : Q := fold_left Qplus l 0.

Section Prosody.

(** [Math.sqrt], which has no rational model, is a parameter.  Every
    quotient below is taken under the guard the source has for it: a
    divisor tested to be positive, or the length of an array that is not
    empty. *)
Variable Math_sqrt : Q -> Q.

Definition rhythmOf (segments : list Q) : Q :=
  if (1 <? length segments)%nat then
    let avgSegment := sumQ segments / num (length segments) in
    let variance :=
      fold_left (fun sum s => sum + Qpower (s - avgSegment) 2) segments 0
      / num (length segments) in
    let stdDev := Math_sqrt variance in
    let cv := if Qltb 0 avgSegment then stdDev / avgSegment else 0 in
    Math_max 0 (Math_min 100 (100 - cv * 100))
  else 50.

Definition rateOf (fs : list AudioFrame) (totalDuration : Q) : SpeakingRate :=
  let nonSilentDuration :=
    num (length (filter (fun f => negb (isSilent f)) fs)) * 100 in
  let speakingRatio :=
    if Qltb 0 totalDuration then nonSilentDuration / totalDuration else 0 in
  if Qltb speakingRatio (1 # 2) then slow
  else if Qltb (8 # 10) speakingRatio then fast
  else normal.

Definition analyzeProsody (audioResult : AudioAnalysisResult) : ProsodyMetrics :=
  let fs := frames audioResult in
  match fs with
  | [] => createEmptyProsodyMetrics
  | _ :: _ =>
      let pitchDiff := pmax (pitchRange audioResult) - pmin (pitchRange audioResult) in
      let pitchVariation :=
        Math_min 100
          (if Qltb 0 (averagePitch audioResult)
           then pitchDiff / averagePitch audioResult * 100 else 0) in
      let pauses := detectPauses fs in
      let pauseCount := num (length pauses) in
      let longPauseCount := num (length (longPauses pauses)) in
      let averagePauseDuration :=
        if Qltb 0 pauseCount
        then fold_left (fun sum p => sum + duration p) pauses 0 / pauseCount
        else 0 in
      let avgRms := fold_left (fun sum f => sum + rms f) fs 0 / num (length fs) in
      let stressEvents := scanStress avgRms fs in
      {| pitchVariation := pitchVariation;
         stressEventCount := num (length stressEvents);
         averagePauseDuration := averagePauseDuration;
         pauseCount := pauseCount;
         longPauseCount := longPauseCount;
         speakingRate := rateOf fs (totalDuration audioResult);
         intonationPatterns := detectIntonation fs;
         rhythmConsistency := rhythmOf (detectSegments fs) |}
  end.

End Prosody.

(** ** Checked arithmetic

    In [calculateFluency] and in [stop] the quotients are computed with
    [JS.div], so that a division by zero is visible in the result instead
    of being given an arbitrary value: [NonFinite] says that some field of
    the value is not a finite number. *)

Inductive result (A : Type) : Type :=
| Ok (a : A)
| NonFinite.

Arguments Ok {A} a.
Arguments NonFinite {A}.

Definition bind {A B : Type} (r : result A) (k : A -> result B) : result B :=
  match r with
  | Ok a => k a
  | NonFinite => NonFinite
  end.

Definition quot (a b : Q) : result Q :=
  match JS.div a b with
  | Some q => Ok q
  | None => NonFinite
  end.

Notation "x <- e ;; k" := (bind e (fun x => k))
  (at level 61, e at next level, right associativity).

(** ** Fluency calculator (fluencyCalculator.ts) *)

Record WordConfidence : Type := mkWord {
  word : string;
  confidence : Q;
  isFiller : bool;
  isRepeat : bool
}.

Record FluencyMetrics : Type := mkFluency {
  wordsPerMinute : Q;
  f_pauseCount : Q;
  f_longPauseCount : Q;
  fillerCount : Q;
  fillerRatio : Q;
  repetitionCount : Q;
  hesitationScore : Q;
  speechToSilenceRatio : Q;
  overallFluencyScore : Q
}.

Definition calculateFluency (words : list WordConfidence)
    (audioResult : AudioAnalysisResult) (prosody : ProsodyMetrics)
    (durationMs : Q) : result FluencyMetrics :=
  let totalWords := num (length words) in
  durationMinutes <- quot durationMs 60000 ;;
  wordsPerMinute <-
    (if Qltb 0 durationMinutes
     then q <- quot totalWords durationMinutes ;; Ok (inject_Z (Math_round q))
     else Ok 0) ;;
  let pauseCount := pauseCount prosody in
  let longPauseCount := longPauseCount prosody in
  let fillers := filter isFiller words in
  let fillerCount := num (length fillers) in
  fillerRatio <-
    (if Qltb 0 totalWords then quot fillerCount totalWords else Ok 0) ;;
  let repetitions := filter isRepeat words in
  let repetitionCount := num (length repetitions) in
  (* Hesitation score *)
  let hesitationScore := 100 in
  let hesitationScore := hesitationScore - pauseCount * 5 in
  let hesitationScore := hesitationScore - fillerCount * 3 in
  let hesitationScore := hesitationScore - repetitionCount * 4 in
  let hesitationScore := hesitationScore - longPauseCount * 8 in
  let hesitationScore := Math_max 0 (Math_min 100 hesitationScore) in
  let speechToSilenceRatio := 1 - silenceRatio audioResult in
  (* Overall fluency score *)
  let overallFluencyScore := 100 in
  let overallFluencyScore :=
    if Qltb wordsPerMinute 100
    then overallFluencyScore - (100 - wordsPerMinute) * (3 # 10)
    else if Qltb 200 wordsPerMinute
    then overallFluencyScore - (wordsPerMinute - 200) * (2 # 10)
    else overallFluencyScore in
  let overallFluencyScore := overallFluencyScore - fillerRatio * 30 in
  let overallFluencyScore := overallFluencyScore - longPauseCount * 5 in
  let overallFluencyScore :=
    if Qltb speechToSilenceRatio (4 # 10)
    then overallFluencyScore - ((4 # 10) - speechToSilenceRatio) * 50
    else overallFluencyScore in
  overallFluencyScore <- quot (overallFluencyScore + hesitationScore) 2 ;;
  let overallFluencyScore := Math_max 0 (Math_min 100 overallFluencyScore) in
  Ok {| wordsPerMinute := wordsPerMinute;
        f_pauseCount := pauseCount;
        f_longPauseCount := longPauseCount;
        fillerCount := fillerCount;
        fillerRatio := fillerRatio;
        repetitionCount := repetitionCount;
        hesitationScore := hesitationScore;
        speechToSilenceRatio := speechToSilenceRatio;
        overallFluencyScore := overallFluencyScore |}.

Definition createEmptyFluencyMetrics : FluencyMetrics :=
  {| wordsPerMinute := 0;
     f_pauseCount := 0;
     f_longPauseCount := 0;
     fillerCount := 0;
     fillerRatio := 0;
     repetitionCount := 0;
     hesitationScore := 50;
     speechToSilenceRatio := 0;
     overallFluencyScore := 0 |}.

(** ** Strings: [trim], [join] and [replace(/\s+/g, ' ')]

    A JavaScript string is a sequence of UTF-16 code units.  The strings
    of the model are the sequences of the code units 0 to 255 (one [ascii]
    for each code unit).  Among these code units the white space of
    [String.prototype.trim] and of [\s] is: tab (9), line feed (10),
    vertical tab (11), form feed (12), carriage return (13), space (32)
    and no-break space (160, U+00A0).  The other white space of
    JavaScript (U+1680, U+2000 to U+200A, U+2028, U+2029, U+202F, U+205F,
    U+3000, U+FEFF) lies above 255, outside the strings of the model. *)

Module Text.

Local Open Scope string_scope.

Definition isSpace (c : ascii) : bool :=
  let n := nat_of_ascii c in
  ((9 <=? n) && (n <=? 13) || (n =? 32) || (n =? 160))%nat.

Fixpoint trimStart (s : string) : string :=
  match s with
  | EmptyString => EmptyString
  | String c r => if isSpace c then trimStart r else s
  end.

Fixpoint trimEnd (s : string) : string :=
  match s with
  | EmptyString => EmptyString
  | String c r =>
      let r' := trimEnd r in
      if isSpace c && (r' =? "") then EmptyString else String c r'
  end.

Definition trim (s : string) : string := trimEnd (trimStart s).

(** [a || b] on strings: the empty string is the only falsy one. *)
Definition or_else (a b : string) : string := if a =? "" then b else a.

Fixpoint join (sep : string) (l : list string) : string :=
  match l with
  | [] => ""
  | [s] => s
  | s :: rest => s ++ sep ++ join sep rest
  end.

(** [s.replace(/\s+/g, ' ')]; [inRun] says that the previous character
    was white space. *)
Fixpoint collapseSpaces (inRun : bool) (s : string) : string :=
  match s with
  | EmptyString => EmptyString
  | String c r =>
      if isSpace c
      then if inRun then collapseSpaces true r
           else String " " (collapseSpaces true r)
      else String c (collapseSpaces false r)
  end.

End Text.

(** ** The session hook ([useAdvancedSpeechAnalysis]) *)

Record SpeechAnalysisResult : Type := mkResult {
  rawTranscript : string;
  cleanedTranscript : string;
  wordConfidences : list WordConfidence;
  fluencyMetrics : FluencyMetrics;
  prosodyMetrics : ProsodyMetrics;
  audioAnalysis : AudioAnalysisResult;
  durationMs : Q;
  overallClarityScore : Q
}.

Record Error : Type := mkError { message : string }.

(** The collaborators of the hook, whose modules are not part of the
    sources at hand, are objects given by what their methods return:
    [AudioFeatureExtractor.stop()] and
    [WordConfidenceTracker.getWordConfidences(text)]. *)
Record AudioFeatureExtractor : Type := mkExtractor {
  extractor_stop : AudioAnalysisResult
}.

Record WordConfidenceTracker : Type := mkTracker {
  getWordConfidences : string -> list WordConfidence
}.

(** The browser's recognition object, as configured by [start]. *)
Record SpeechRecognition : Type := mkRecognition {
  continuous : bool;
  interimResults : bool;
  lang : string
}.

(** Modelled from the spec: [AudioFeatureExtractor.createEmptyResult()],
    whose module is missing; section 4.1 gives the value
    [{frames:[], pitchRange:{0,0}, averagePitch:0, totalDuration:0,
    silenceRatio:0}]. *)
Definition createEmptyResult : AudioAnalysisResult :=
  {| frames := [];
     pitchRange := mkPitchRange 0 0;
     averagePitch := 0;
     totalDuration := 0;
     silenceRatio := 0 |}.

(** The [useState] cells and the [useRef] cells of the hook. *)
Record Hook : Type := mkHook {
  isAnalyzing : bool;
  interimTranscript : string;
  error : option Error;
  isSupported : bool;
  audioExtractorRef : option AudioFeatureExtractor;
  wordTrackerRef : option WordConfidenceTracker;
  recognitionRef : option SpeechRecognition;
  finalTranscriptRef : string;
  startTimeRef : Q;
  isAnalyzingRef : bool
}.

(** The options of the caller; a callback is either registered or not. *)
Record Options : Type := mkOptions {
  language : option string;
  onInterimResult : bool;
  onError : bool
}.

(** A call of one of the caller's callbacks. *)
Inductive Callback : Type :=
| CallOnInterimResult (transcript : string)
| CallOnError (err : Error).

Definition setError (e : option Error) (h : Hook) : Hook :=
  {| isAnalyzing := isAnalyzing h;
     interimTranscript := interimTranscript h;
     error := e;
     isSupported := isSupported h;
     audioExtractorRef := audioExtractorRef h;
     wordTrackerRef := wordTrackerRef h;
     recognitionRef := recognitionRef h;
     finalTranscriptRef := finalTranscriptRef h;
     startTimeRef := startTimeRef h;
     isAnalyzingRef := isAnalyzingRef h |}.

(** [recognition.onerror] (lines 260-266): the new state and the callbacks
    it calls. *)
Definition onerror (options : Options) (h : Hook) (code : string)
    : Hook * list Callback :=
  if negb (code =? "no-speech")%string && negb (code =? "aborted")%string
  then
    let err := mkError ("Speech recognition error: " ++ code)%string in
    (setError (Some err) h, if onError options then [CallOnError err] else [])
  else (h, []).

(** [recognition.onend] (lines 268-277): whether [recognition.start()] is
    called again; an exception of that call is caught. *)
Definition onend (h : Hook) : bool :=
  isAnalyzingRef h
  && match recognitionRef h with Some _ => true | None => false end.

(** The first statements of [stop] and of [abort]: both flags are cleared,
    the recognition is aborted (an exception of [abort()] is caught) and
    its reference dropped. *)
Definition detach (h : Hook) : Hook :=
  {| isAnalyzing := false;
     interimTranscript := interimTranscript h;
     error := error h;
     isSupported := isSupported h;
     audioExtractorRef := audioExtractorRef h;
     wordTrackerRef := wordTrackerRef h;
     recognitionRef := None;
     finalTranscriptRef := finalTranscriptRef h;
     startTimeRef := startTimeRef h;
     isAnalyzingRef := false |}.

Section Session.

Variable Math_sqrt : Q -> Q.

(** [WordConfidenceTracker.createEmptyConfidences], whose module is
    missing. *)
Variable createEmptyConfidences : string -> list WordConfidence.

(** The transcript [stop] works on (line 310). *)
Definition bestTranscript (h : Hook) : string :=
  Text.or_else (Text.trim (finalTranscriptRef h))
               (Text.trim (interimTranscript h)).

Definition cleanOf (wordConfidences : list WordConfidence) : string :=
  Text.trim
    (Text.collapseSpaces false
       (Text.join " "
          (map word
             (filter (fun w => negb (isFiller w) && negb (isRepeat w))
                     wordConfidences)))).

(** [stop()], with [now] the value of [Date.now()] (lines 290-361).  The
    numbers of the result are the exact ones; the clarity score as the
    code rounds it is [Doubles.overallClarityScore]. *)
Definition stop (h : Hook) (now : Q)
    : result (Hook * option SpeechAnalysisResult) :=
  let h' := detach h in
  let audioAnalysis :=
    match audioExtractorRef h with
    | Some extractor => extractor_stop extractor
    | None => createEmptyResult
    end in
  let prosodyMetrics := analyzeProsody Math_sqrt audioAnalysis in
  let rawTranscript := bestTranscript h in
  if (rawTranscript =? "")%string then Ok (h', None)
  else
    let wordConfidences :=
      match wordTrackerRef h with
      | Some tracker => getWordConfidences tracker rawTranscript
      | None => createEmptyConfidences rawTranscript
      end in
    let durationMs := now - startTimeRef h in
    fluencyMetrics <-
      calculateFluency wordConfidences audioAnalysis prosodyMetrics durationMs ;;
    let cleanedTranscript := cleanOf wordConfidences in
    avgConfidence <-
      (if (0 <? length wordConfidences)%nat
       then quot (fold_left (fun sum w => sum + confidence w) wordConfidences 0)
                 (num (length wordConfidences))
       else Ok 0) ;;
    let overallClarityScore :=
      inject_Z (Math_round
        (avgConfidence * (4 # 10)
         + overallFluencyScore fluencyMetrics * (3 # 10)
         + pitchVariation prosodyMetrics * (15 # 100)
         + rhythmConsistency prosodyMetrics * (15 # 100))) in
    Ok (h', Some {| rawTranscript := rawTranscript;
                    cleanedTranscript := cleanedTranscript;
                    wordConfidences := wordConfidences;
                    fluencyMetrics := fluencyMetrics;
                    prosodyMetrics := prosodyMetrics;
                    audioAnalysis := audioAnalysis;
                    durationMs := durationMs;
                    overallClarityScore := overallClarityScore |}).

End Session.


(** ** The fluency assessment (fluencyCalculator.ts, lines 108-157) *)

Inductive FluencyLevel : Type :=
| excellent
| good
| fair
| needs_improvement.

Record Assessment : Type := mkAssessment {
  a_level : FluencyLevel;
  summary : string
}.

(** [issues.push(text)] under the condition [c]. *)
Definition pushIf (c : bool) (text : string) (issues : list string)
    : list string :=
  if c then issues ++ [text] else issues.

Definition getFluencyAssessment (metrics : FluencyMetrics) : Assessment :=
  let overallFluencyScore := overallFluencyScore metrics in
  let wordsPerMinute := wordsPerMinute metrics in
  let fillerRatio := fillerRatio metrics in
  let longPauseCount := f_longPauseCount metrics in
  if Qle_bool 80 overallFluencyScore then
    {| a_level := excellent;
       summary := "Excellent fluency with natural pacing and minimal hesitation." |}
  else if Qle_bool 60 overallFluencyScore then
    let issues := [] in
    let issues := pushIf (Qltb wordsPerMinute 110) "slightly slow pace" issues in
    let issues := pushIf (Qltb 190 wordsPerMinute) "slightly fast pace" issues in
    let issues := pushIf (Qltb (1 # 10) fillerRatio) "some filler words" issues in
    let issues := pushIf (Qltb 2 longPauseCount) "occasional long pauses" issues in
    {| a_level := good;
       summary :=
         if (0 <? length issues)%nat
         then ("Good fluency with " ++ Text.join ", " issues ++ ".")%string
         else "Good fluency with room for minor improvements." |}
  else if Qle_bool 40 overallFluencyScore then
    let issues := [] in
    let issues := pushIf (Qltb wordsPerMinute 100) "slow pace" issues in
    let issues := pushIf (Qltb (15 # 100) fillerRatio) "frequent filler words" issues in
    let issues := pushIf (Qltb 4 longPauseCount) "frequent long pauses" issues in
    {| a_level := fair;
       summary :=
         if (0 <? length issues)%nat
         then ("Fair fluency - work on " ++ Text.join ", " issues ++ ".")%string
         else "Fair fluency with noticeable hesitation." |}
  else
    {| a_level := needs_improvement;
       summary := "Fluency needs significant improvement. Focus on reducing pauses and fillers." |}.

(** ** The rest of the session hook *)

(** Calls the hook makes on its collaborators. *)
Inductive Effect : Type :=
| RecognitionStart
| RecognitionAbort
| ExtractorStart
| ExtractorStop
| AddSnapshot (text : string) (final : bool).

(** How [start] ends: it returns [true] or [false], or the promise of
    [AudioFeatureExtractor.start] rejects and [start] rejects with it. *)
Inductive StartOutcome : Type :=
| Returned (ok : bool)
| Rejected.

(** [options.language || 'en-GB']. *)
Definition languageOf (options : Options) : string :=
  match language options with
  | Some l => Text.or_else l "en-GB"
  | None => "en-GB"
  end.

(** [start(stream)] (lines 204-288).  [supported] says whether the window
    has a recognition class, [extractor] and [tracker] are the objects the
    two [new] expressions create, [extractorStarts] says whether the
    awaited [extractor.start(stream)] resolves, [now] is [Date.now()]. *)
Definition start (options : Options) (supported : bool)
    (extractor : AudioFeatureExtractor) (extractorStarts : bool)
    (tracker : WordConfidenceTracker) (now : Q) (h : Hook)
    : Hook * StartOutcome * list Effect :=
  if negb supported then
    ({| isAnalyzing := isAnalyzing h;
        interimTranscript := interimTranscript h;
        error := Some (mkError "Speech recognition not supported in this browser");
        isSupported := false;
        audioExtractorRef := audioExtractorRef h;
        wordTrackerRef := wordTrackerRef h;
        recognitionRef := recognitionRef h;
        finalTranscriptRef := finalTranscriptRef h;
        startTimeRef := startTimeRef h;
        isAnalyzingRef := isAnalyzingRef h |},
     Returned false, [])
  else if negb extractorStarts then
    ({| isAnalyzing := true;
        interimTranscript := "";
        error := None;
        isSupported := isSupported h;
        audioExtractorRef := Some extractor;
        wordTrackerRef := wordTrackerRef h;
        recognitionRef := recognitionRef h;
        finalTranscriptRef := "";
        startTimeRef := now;
        isAnalyzingRef := true |},
     Rejected, [ExtractorStart])
  else
    ({| isAnalyzing := true;
        interimTranscript := "";
        error := None;
        isSupported := isSupported h;
        audioExtractorRef := Some extractor;
        wordTrackerRef := Some tracker;
        recognitionRef :=
          Some {| continuous := true;
                  interimResults := true;
                  lang := languageOf options |};
        finalTranscriptRef := "";
        startTimeRef := now;
        isAnalyzingRef := true |},
     Returned true, [ExtractorStart; RecognitionStart]).

(** One item of [event.results], with the transcript of its first
    alternative. *)
Record RecognitionResult : Type := mkRecResult {
  isFinal : bool;
  transcript : string
}.

Record SpeechRecognitionEvent : Type := mkEvent {
  results : list RecognitionResult;
  resultIndex : nat
}.

(** The loop of [recognition.onresult] over the results from
    [resultIndex] on: the interim text, the final text and the snapshots
    given to the tracker. *)
Fixpoint scanResults (rs : list RecognitionResult)
    (interimText finalText : string) (snapshots : list Effect)
    : string * string * list Effect :=
  match rs with
  | [] => (interimText, finalText, snapshots)
  | result :: rest =>
      let text := transcript result in
      if isFinal result
      then scanResults rest interimText (finalText ++ (text ++ " "))%string
             (snapshots ++ [AddSnapshot text true])
      else scanResults rest (interimText ++ text)%string finalText
             (snapshots ++ [AddSnapshot text false])
  end.

Definition setTranscripts (final interim : string) (h : Hook) : Hook :=
  {| isAnalyzing := isAnalyzing h;
     interimTranscript := interim;
     error := error h;
     isSupported := isSupported h;
     audioExtractorRef := audioExtractorRef h;
     wordTrackerRef := wordTrackerRef h;
     recognitionRef := recognitionRef h;
     finalTranscriptRef := final;
     startTimeRef := startTimeRef h;
     isAnalyzingRef := isAnalyzingRef h |}.

(** [recognition.onresult] (lines 234-258): the new state, the callbacks
    called and the calls on the tracker (none when there is no tracker). *)
Definition onresult (options : Options) (h : Hook)
    (event : SpeechRecognitionEvent) : Hook * list Callback * list Effect :=
  let '(interimText, finalText, snapshots) :=
    scanResults (skipn (resultIndex event) (results event)) "" "" [] in
  let final :=
    if (finalText =? "")%string then finalTranscriptRef h
    else (finalTranscriptRef h ++ finalText)%string in
  let combined := (final ++ interimText)%string in
  (setTranscripts final combined h,
   if onInterimResult options then [CallOnInterimResult combined] else [],
   match wordTrackerRef h with
   | Some _ => snapshots
   | None => []
   end).

(** [abort()] (lines 363-383). *)
Definition abort (h : Hook) : Hook * list Effect :=
  ({| isAnalyzing := false;
      interimTranscript := "";
      error := error h;
      isSupported := isSupported h;
      audioExtractorRef := None;
      wordTrackerRef := None;
      recognitionRef := None;
      finalTranscriptRef := finalTranscriptRef h;
      startTimeRef := startTimeRef h;
      isAnalyzingRef := false |},
   (match recognitionRef h with Some _ => [RecognitionAbort] | None => [] end)
   ++ (match audioExtractorRef h with Some _ => [ExtractorStop] | None => [] end)).

(** ** The feedback component ([InstantSpeechFeedback]) *)

(** What a transcript panel shows: a text, or the placeholder
    "No speech detected" (sections A and C, lines 165 and 189). *)
Inductive PanelText : Type :=
| Shown (text : string)
| NoSpeechDetected.

(** [rawTranscript || placeholder] (section A). *)
Definition rawPanel (analysis : SpeechAnalysisResult) : PanelText :=
  if (rawTranscript analysis =? "")%string then NoSpeechDetected
  else Shown (rawTranscript analysis).

(** [cleanedTranscript || rawTranscript || placeholder] (section C). *)
Definition polishedPanel (analysis : SpeechAnalysisResult) : PanelText :=
  if (cleanedTranscript analysis =? "")%string then rawPanel analysis
  else Shown (cleanedTranscript analysis).

(** [rawTranscript || placeholder], the line of the compact layout
    (line 107). *)
Definition compactLine (analysis : SpeechAnalysisResult) : PanelText :=
  if (rawTranscript analysis =? "")%string then NoSpeechDetected
  else Shown (rawTranscript analysis).

(** What the Clarity tab shows (section B, lines 175-181): one coloured
    word for each word confidence, or the placeholder when there is
    none. *)
Inductive ClarityText : Type :=
| ConfidenceWords (words : list WordConfidence)
| NoWordsDetected.

Definition clarityPanel (analysis : SpeechAnalysisResult) : ClarityText :=
  if (0 <? length (wordConfidences analysis))%nat
  then ConfidenceWords (wordConfidences analysis)
  else NoWordsDetected.

(** ** Browser notifications ([useBrowserNotifications]) *)

Inductive NotificationPermission : Type :=
| perm_default
| perm_granted
| perm_denied.

(** The two [useState] cells of the hook. *)
Record Notifier : Type := mkNotifier {
  permission : NotificationPermission;
  notificationsSupported : bool
}.

(** What the browser does during one call: the answer to
    [Notification.requestPermission()] ([None] when the promise rejects)
    and whether [new Notification(...)] throws. *)
Record Browser : Type := mkBrowser {
  requestAnswer : option NotificationPermission;
  constructorThrows : bool
}.

Record NotificationOptions : Type := mkNotificationOptions {
  n_title : string;
  n_body : string;
  n_icon : option string;
  n_tag : option string;
  n_onClick : bool
}.

(** The notification handed to the browser. *)
Record BrowserNotification : Type := mkBrowserNotification {
  s_title : string;
  s_body : string;
  s_icon : string;
  s_tag : string;
  s_requireInteraction : bool;
  s_onclick : bool
}.

Inductive NotifierEffect : Type :=
| AskPermission
| ShowNotification (n : BrowserNotification)
| CloseAfter (ms : Q).

(** The effect of [useEffect] at mount: [hasNotification] is
    ['Notification' in window], [current] is [Notification.permission]. *)
Definition mountNotifier (hasNotification : bool)
    (current : NotificationPermission) : Notifier :=
  if hasNotification
  then {| permission := current; notificationsSupported := true |}
  else {| permission := perm_default; notificationsSupported := false |}.

Definition isGranted (p : NotificationPermission) : bool :=
  match p with
  | perm_granted => true
  | _ => false
  end.

(** [requestPermission()] (lines 23-34). *)
Definition requestPermission (st : Notifier) (browser : Browser)
    : Notifier * bool * list NotifierEffect :=
  if negb (notificationsSupported st) then (st, false, [])
  else
    match requestAnswer browser with
    | Some result =>
        ({| permission := result;
            notificationsSupported := notificationsSupported st |},
         isGranted result, [AskPermission])
    | None => (st, false, [AskPermission])
    end.

(** [x || fallback] for an optional string. *)
Definition orDefault (x : option string) (fallback : string) : string :=
  match x with
  | Some s => Text.or_else s fallback
  | None => fallback
  end.

(** [showNotification(options)] (lines 36-82). *)
Definition showNotification (st : Notifier) (browser : Browser)
    (options : NotificationOptions)
    : Notifier * bool * list NotifierEffect :=
  if negb (notificationsSupported st) then (st, false, [])
  else
    let currentPermission := permission st in
    let '(st1, currentPermission, effects, refused) :=
      match currentPermission with
      | perm_default =>
          let '(st1, granted, effects) := requestPermission st browser in
          if negb granted then (st1, currentPermission, effects, true)
          else (st1, perm_granted, effects, false)
      | _ => (st, currentPermission, [], false)
      end in
    if refused then (st1, false, effects)
    else if negb (isGranted currentPermission) then (st1, false, effects)
    else if constructorThrows browser then (st1, false, effects)
    else
      (st1, true,
       effects
       ++ [ShowNotification
             {| s_title := n_title options;
                s_body := n_body options;
                s_icon := orDefault (n_icon options) "/favicon.svg";
                s_tag := orDefault (n_tag options) "ielts-dhaka";
                s_requireInteraction := false;
                s_onclick := n_onClick options |};
           CloseAfter 5000]).

(** ** The clarity score in the numbers of the code

    The last computation of [stop] (lines 339-349), embedded over the
    doubles: [float] is the binary64 format of IEEE 754, with its
    round-to-nearest-even arithmetic, which is the arithmetic of a
    JavaScript [number].  A decimal constant such as [0.4] denotes the
    double nearest to it, as it does in the source. *)

Set Warnings "-inexact-float".

Module Doubles.

Local Open Scope float_scope.

(** An array length used as a number (a length is below [2^32], where the
    conversion is exact). *)
Definition num (n : nat) : float :=
  PrimFloat.of_uint63 (Uint63.of_Z (Z.of_nat n)).

(** The double of an integer below [2^53] in absolute value. *)
Definition ofZ (z : Z) : float :=
  if (z <? 0)%Z then - PrimFloat.of_uint63 (Uint63.of_Z (- z))
  else PrimFloat.of_uint63 (Uint63.of_Z z).

(** [Math.round(x)]: [x] itself when it is not finite, a zero or an
    integer; otherwise the integer nearest to the value of [x], halves
    going up, which is [-0] for a negative [x] of at least [-0.5].  The
    value of a finite double is [m * 2^e] with the sign [s]; it has a
    fractional part only when [e < 0], and is then below [2^53]. *)
Definition Math_round (x : float) : float :=
  match Prim2SF x with
  | S754_finite s m e =>
      let value := (inject_Z (if s then Z.neg m else Z.pos m) * Qpower 2 e)%Q in
      let rounded := Qfloor (value + (1 # 2))%Q in
      if (0 <=? e)%Z then x
      else if (rounded =? 0)%Z && s then -0
      else ofZ rounded
  | _ => x
  end.

(** [avgConfidence] (lines 340-342); [confidences] are the [confidence]
    fields of [wordConfidences], in the order of the array. *)
Definition avgConfidence (confidences : list float) : float :=
  if (0 <? length confidences)%nat
  then fold_left (fun sum c => sum + c) confidences 0
       / num (length confidences)
  else 0.

(** [overallClarityScore] (lines 344-349), from the confidences of the
    words, [fluencyMetrics.overallFluencyScore],
    [prosodyMetrics.pitchVariation] and
    [prosodyMetrics.rhythmConsistency]. *)
Definition overallClarityScore (confidences : list float)
    (overallFluencyScore pitchVariation rhythmConsistency : float) : float :=
  Math_round
    (avgConfidence confidences * 0.4
     + overallFluencyScore * 0.3
     + pitchVariation * 0.15
     + rhythmConsistency * 0.15).

End Doubles.

(** ** The pause scan *)

Definition voiced (f : AudioFrame) : bool := negb (isSilent f).

(** A list that is empty or starts (ends) with a frame that is not silent. *)
Definition startsVoiced (fs : list AudioFrame) : bool :=
  match fs with
  | [] => true
  | f :: _ => voiced f
  end.

Definition endsVoiced (fs : list AudioFrame) : bool := startsVoiced (rev fs).

(** The pause the code measures for a run of silent frames followed by
    [post]: from the first silent frame to the first frame after the run,
    or to the last frame of the run when the recording ends with it.  This
    is the measure of the code, which depends on where the run is; the
    duration of the run itself is [runDuration] below. *)
Definition runPause (run post : list AudioFrame) : option Pause :=
  match run with
  | [] => None
  | f0 :: _ =>
      let e := match post with
               | f :: _ => timestamp f
               | [] => timestamp (last run f0)
               end in
      Some (mkPause (timestamp f0) e (e - timestamp f0))
  end.

Definition qualifies (threshold : Q) (p : Pause) : list Pause :=
  if Qle_bool threshold (duration p) then [p] else [].


(** ** Sample data *)

(** A rational stand-in for [Math.sqrt], exact to three decimals. *)
Definition sqrt_milli (x : Q) : Q :=
  inject_Z (Z.sqrt (Qfloor (x * 1000000))) / 1000.

(** The frame sampled at index [i] of the 100 ms cadence. *)
Definition frameAt (i : nat) (silent : bool) (pitch : Q) : AudioFrame :=
  {| timestamp := num i * 100;
     rms := if silent then 0 else 1 # 10;
     pitch := pitch;
     isSilent := silent |}.

(** Six voiced frames whose pitch goes from 100 Hz to 300 Hz within the
    first window. *)
Definition risingFrames : list AudioFrame :=
  [ frameAt 0 false 100; frameAt 1 false 120; frameAt 2 false 150;
    frameAt 3 false 200; frameAt 4 false 300; frameAt 5 false 300 ].

Definition risingAudio : AudioAnalysisResult :=
  {| frames := risingFrames;
     pitchRange := mkPitchRange 100 300;
     averagePitch := 195;
     totalDuration := 600;
     silenceRatio := 0 |}.

(** Eleven voiced frames: two full windows, each followed by a frame. *)
Definition elevenFrames : list AudioFrame :=
  map (fun i => frameAt i false (200 + num i)) (seq 0 11).

Definition elevenAudio : AudioAnalysisResult :=
  {| frames := elevenFrames;
     pitchRange := mkPitchRange 200 210;
     averagePitch := 205;
     totalDuration := 1100;
     silenceRatio := 0 |}.

(** ** The fluency formulas, unchecked

    The quantities of [calculateFluency] written with the plain quotient of
    [Q]; [calculateFluency_Ok] below shows that the checked computation of
    the code returns exactly these. *)

Definition wpmOf (totalWords durationMs : Q) : Q :=
  if Qltb 0 (durationMs / 60000)
  then inject_Z (Math_round (totalWords / (durationMs / 60000)))
  else 0.

Definition ratioOf (fillerCount totalWords : Q) : Q :=
  if Qltb 0 totalWords then fillerCount / totalWords else 0.

Definition hesitationOf (pauseCount fillerCount repetitionCount longPauseCount : Q) : Q :=
  Math_max 0 (Math_min 100
    (100 - pauseCount * 5 - fillerCount * 3 - repetitionCount * 4
     - longPauseCount * 8)).

Definition scoreOf (wpm fillerRatio longPauseCount ratio hesitation : Q) : Q :=
  let s := 100 in
  let s :=
    if Qltb wpm 100 then s - (100 - wpm) * (3 # 10)
    else if Qltb 200 wpm then s - (wpm - 200) * (2 # 10)
    else s in
  let s := s - fillerRatio * 30 in
  let s := s - longPauseCount * 5 in
  let s :=
    if Qltb ratio (4 # 10) then s - ((4 # 10) - ratio) * 50 else s in
  Math_max 0 (Math_min 100 ((s + hesitation) / 2)).

Definition fillersOf (words : list WordConfidence) : Q :=
  num (length (filter isFiller words)).

Definition repeatsOf (words : list WordConfidence) : Q :=
  num (length (filter isRepeat words)).

Definition fluencyOf (words : list WordConfidence)
    (audioResult : AudioAnalysisResult) (prosody : ProsodyMetrics)
    (durationMs : Q) : FluencyMetrics :=
  let totalWords := num (length words) in
  let h := hesitationOf (pauseCount prosody) (fillersOf words)
                        (repeatsOf words) (longPauseCount prosody) in
  {| wordsPerMinute := wpmOf totalWords durationMs;
     f_pauseCount := pauseCount prosody;
     f_longPauseCount := longPauseCount prosody;
     fillerCount := fillersOf words;
     fillerRatio := ratioOf (fillersOf words) totalWords;
     repetitionCount := repeatsOf words;
     hesitationScore := h;
     speechToSilenceRatio := 1 - silenceRatio audioResult;
     overallFluencyScore :=
       scoreOf (wpmOf totalWords durationMs)
               (ratioOf (fillersOf words) totalWords)
               (longPauseCount prosody)
               (1 - silenceRatio audioResult) h |}.

(** Two transcripts of two words, without and with one filler, and a
    recording with 25 long pauses. *)
Definition plainWords : list WordConfidence :=
  [ mkWord "well" 90 false false; mkWord "yes" 90 false false ].

Definition fillerWords : list WordConfidence :=
  [ mkWord "um" 90 true false; mkWord "yes" 90 false false ].

Definition haltingProsody : ProsodyMetrics :=
  {| pitchVariation := 20;
     stressEventCount := 0;
     averagePauseDuration := 1600;
     pauseCount := 25;
     longPauseCount := 25;
     speakingRate := slow;
     intonationPatterns := [];
     rhythmConsistency := 50 |}.

Definition haltingAudio : AudioAnalysisResult :=
  {| frames := [];
     pitchRange := mkPitchRange 100 120;
     averagePitch := 110;
     totalDuration := 120000;
     silenceRatio := 1 # 2 |}.

(** ** The clarity score in the words of the specification *)


(** One word of confidence 60, as doubles. *)
Definition oneWordAtSixty : list float := [60%float].

(** The average of the word confidences; 0 for no word at all, as [stop]
    has it. *)
Definition averageConfidence (ws : list WordConfidence) : Q :=
  match ws with
  | [] => 0
  | _ :: _ => sumQ (map confidence ws) / num (length ws)
  end.

(** [round(0.4 avg + 0.3 fluency + 0.15 pitchVariation + 0.15 rhythm)]. *)
Definition clarityFormula (avg fluency variation rhythm : Q) : Z :=
  Math_round ((4 # 10) * avg + (3 # 10) * fluency
              + (15 # 100) * variation + (15 # 100) * rhythm).

(** ** Sample sessions *)

(** A stand-in for [createEmptyConfidences]: the text as one word of
    neutral confidence. *)
Definition sampleEmptyConfidences (text : string) : list WordConfidence :=
  [ mkWord text 50 false false ].

Definition sampleRecognition : SpeechRecognition :=
  {| continuous := true; interimResults := true; lang := "en-GB" |}.

(** A session that heard "well yes" over the six frames of [risingAudio]. *)
Definition heardHook : Hook :=
  {| isAnalyzing := true;
     interimTranscript := "well yes ";
     error := None;
     isSupported := true;
     audioExtractorRef := Some (mkExtractor risingAudio);
     wordTrackerRef := Some (mkTracker (fun _ => plainWords));
     recognitionRef := Some sampleRecognition;
     finalTranscriptRef := "well yes ";
     startTimeRef := 1000;
     isAnalyzingRef := true |}.

(** The same session when nothing but white space was recognised. *)
Definition silentHook : Hook :=
  {| isAnalyzing := true;
     interimTranscript := "  ";
     error := None;
     isSupported := true;
     audioExtractorRef := Some (mkExtractor risingAudio);
     wordTrackerRef := Some (mkTracker (fun _ => plainWords));
     recognitionRef := Some sampleRecognition;
     finalTranscriptRef := "";
     startTimeRef := 1000;
     isAnalyzingRef := true |}.

Definition sampleOptions : Options :=
  {| language := None; onInterimResult := true; onError := true |}.

(** ** Recordings at the 100 ms cadence *)

(** The frames [fs] are the samples number [n], [n + 1], ... of the
    100 ms cadence. *)
Definition atCadence (n : nat) (fs : list AudioFrame) : Prop :=
  forall k f, nth_error fs k = Some f -> timestamp f == num (n + k) * 100.

(** The same, as a test that can be run. *)
Fixpoint atCadenceb (n : nat) (fs : list AudioFrame) : bool :=
  match fs with
  | [] => true
  | f :: rest => Qeq_bool (timestamp f) (num n * 100) && atCadenceb (S n) rest
  end.

(** The duration of a run of frames at the cadence: 100 ms for each
    frame, wherever the run is in the recording (the code itself counts a
    frame as 100 ms: [nonSilentDuration], line 158). *)
Definition runDuration (run : list AudioFrame) : Q := num (length run) * 100.

(** Whether a run is counted, as a number to add to a count. *)
Definition countedIf (b : bool) : nat := if b then 1%nat else 0%nat.

(** One voiced frame, then five silent ones: once at the end of the
    recording, once followed by a voiced frame. *)
Definition fiveSilent : list AudioFrame :=
  map (fun i => frameAt i true 0) (seq 1 5).

Definition trailingFive : list AudioFrame :=
  frameAt 0 false 200 :: fiveSilent.

Definition interiorFive : list AudioFrame :=
  frameAt 0 false 200 :: fiveSilent ++ [frameAt 6 false 200].

Definition trailingAudio : AudioAnalysisResult :=
  {| frames := trailingFive;
     pitchRange := mkPitchRange 200 200;
     averagePitch := 200;
     totalDuration := 600;
     silenceRatio := 5 # 6 |}.

Definition interiorAudio : AudioAnalysisResult :=
  {| frames := interiorFive;
     pitchRange := mkPitchRange 200 200;
     averagePitch := 200;
     totalDuration := 700;
     silenceRatio := 5 # 7 |}.

(** One voiced frame, sixteen silent ones (1600 ms up to the next frame),
    one voiced frame. *)
Definition sixteenSilent : list AudioFrame :=
  map (fun i => frameAt i true 0) (seq 1 16).

Definition longPauseAudio : AudioAnalysisResult :=
  {| frames := [frameAt 0 false 200] ++ sixteenSilent ++ [frameAt 17 false 200];
     pitchRange := mkPitchRange 200 200;
     averagePitch := 200;
     totalDuration := 1800;
     silenceRatio := 16 # 18 |}.

(** One voiced frame, then fifteen silent ones (1500 ms) that end the
    recording. *)
Definition fifteenSilent : list AudioFrame :=
  map (fun i => frameAt i true 0) (seq 1 15).

Definition trailingFifteenAudio : AudioAnalysisResult :=
  {| frames := [frameAt 0 false 200] ++ fifteenSilent ++ [];
     pitchRange := mkPitchRange 200 200;
     averagePitch := 200;
     totalDuration := 1600;
     silenceRatio := 15 # 16 |}.

(** ** Further notions used by the properties *)

(** The summed duration of a list of pauses. *)
Definition pauseTime (pauses : list Pause) : Q :=
  fold_right (fun p sum => duration p + sum) 0 pauses.





(** The order of the fluency levels. *)
Definition levelRank (l : FluencyLevel) : nat :=
  match l with
  | needs_improvement => 0
  | fair => 1
  | good => 2
  | excellent => 3
  end.

(** ** Notions on transcripts *)

(** A string of white space only. *)
Fixpoint blank (s : string) : bool :=
  match s with
  | EmptyString => true
  | String c r => Text.isSpace c && blank r
  end.

Definition firstIsSpace (s : string) : bool :=
  match s with
  | EmptyString => false
  | String c _ => Text.isSpace c
  end.

Fixpoint lastIsSpace (s : string) : bool :=
  match s with
  | EmptyString => false
  | String c EmptyString => Text.isSpace c
  | String _ r => lastIsSpace r
  end.

(** Every white space character of [s] is a space and none follows
    another one; [afterSpace] says that [s] comes after a white space. *)
Fixpoint singleSpaced (afterSpace : bool) (s : string) : bool :=
  match s with
  | EmptyString => true
  | String c r =>
      if Text.isSpace c
      then negb afterSpace && Ascii.eqb c " " && singleSpaced true r
      else singleSpaced false r
  end.

(** The texts one recognition event adds: the final chunks, each followed
    by a space, and the interim chunks. *)
Fixpoint finalOf (rs : list RecognitionResult) : string :=
  match rs with
  | [] => ""
  | r :: rest =>
      if isFinal r then (transcript r ++ " " ++ finalOf rest)%string
      else finalOf rest
  end.

Fixpoint interimOf (rs : list RecognitionResult) : string :=
  match rs with
  | [] => ""
  | r :: rest =>
      if isFinal r then interimOf rest
      else (transcript r ++ interimOf rest)%string
  end.

Definition snapshotOf (r : RecognitionResult) : Effect :=
  AddSnapshot (transcript r) (isFinal r).

(** The result [stop] builds from a hook whose transcript is not empty,
    with the plain quotient for the average confidence. *)
Definition resultOf (Math_sqrt : Q -> Q)
    (createEmptyConfidences : string -> list WordConfidence)
    (h : Hook) (now : Q) : SpeechAnalysisResult :=
  let audioAnalysis :=
    match audioExtractorRef h with
    | Some extractor => extractor_stop extractor
    | None => createEmptyResult
    end in
  let prosodyMetrics := analyzeProsody Math_sqrt audioAnalysis in
  let rawTranscript := bestTranscript h in
  let wordConfidences :=
    match wordTrackerRef h with
    | Some tracker => getWordConfidences tracker rawTranscript
    | None => createEmptyConfidences rawTranscript
    end in
  let durationMs := now - startTimeRef h in
  let fluencyMetrics :=
    fluencyOf wordConfidences audioAnalysis prosodyMetrics durationMs in
  {| rawTranscript := rawTranscript;
     cleanedTranscript := cleanOf wordConfidences;
     wordConfidences := wordConfidences;
     fluencyMetrics := fluencyMetrics;
     prosodyMetrics := prosodyMetrics;
     audioAnalysis := audioAnalysis;
     durationMs := durationMs;
     overallClarityScore :=
       inject_Z (Math_round
         (averageConfidence wordConfidences * (4 # 10)
          + overallFluencyScore fluencyMetrics * (3 # 10)
          + pitchVariation prosodyMetrics * (15 # 100)
          + rhythmConsistency prosodyMetrics * (15 # 100))) |}.

(** ** Notions on notifications *)

Definition isShow (e : NotifierEffect) : bool :=
  match e with
  | ShowNotification _ => true
  | _ => false
  end.

Definition isAsk (e : NotifierEffect) : bool :=
  match e with
  | AskPermission => true
  | _ => false
  end.

(** ** More sample data *)

(** Seven silent frames. *)
Definition silentAudio : AudioAnalysisResult :=
  {| frames := map (fun i => frameAt i true 0) (seq 0 7);
     pitchRange := mkPitchRange 0 0;
     averagePitch := 0;
     totalDuration := 700;
     silenceRatio := 1 |}.

(** Thirty words without fillers or repeats. *)
Definition thirtyWords : list WordConfidence :=
  repeat (mkWord "word" 80 false false) 30.

(** Their fluency over 15 s of the recording with one long pause. *)
Definition haltedMetrics : FluencyMetrics :=
  fluencyOf thirtyWords longPauseAudio
            (analyzeProsody sqrt_milli longPauseAudio) 15000.

(** The session of [heardHook] when nothing but a no-break space (U+00A0,
    code unit 160) was recognised. *)
Definition nbspHook : Hook :=
  {| isAnalyzing := true;
     interimTranscript := "";
     error := None;
     isSupported := true;
     audioExtractorRef := Some (mkExtractor risingAudio);
     wordTrackerRef := Some (mkTracker (fun _ => plainWords));
     recognitionRef := Some sampleRecognition;
     finalTranscriptRef := String (ascii_of_nat 160) " ";
     startTimeRef := 1000;
     isAnalyzingRef := true |}.

(** The session of [heardHook] with a tracker that returns no word. *)
Definition wordlessHook : Hook :=
  {| isAnalyzing := true;
     interimTranscript := "well yes ";
     error := None;
     isSupported := true;
     audioExtractorRef := Some (mkExtractor risingAudio);
     wordTrackerRef := Some (mkTracker (fun _ => []));
     recognitionRef := Some sampleRecognition;
     finalTranscriptRef := "well yes ";
     startTimeRef := 1000;
     isAnalyzingRef := true |}.

(** A recognition event with one final and one interim result. *)
Definition sampleEvent : SpeechRecognitionEvent :=
  {| results := [ mkRecResult true "well yes"; mkRecResult false "I th" ];
     resultIndex := 0 |}.

(** A hook right after [start]. *)
Definition freshHook : Hook :=
  {| isAnalyzing := true;
     interimTranscript := "";
     error := None;
     isSupported := true;
     audioExtractorRef := Some (mkExtractor risingAudio);
     wordTrackerRef := Some (mkTracker (fun _ => plainWords));
     recognitionRef := Some sampleRecognition;
     finalTranscriptRef := "";
     startTimeRef := 1000;
     isAnalyzingRef := true |}.

Definition askingNotifier : Notifier :=
  {| permission := perm_default; notificationsSupported := true |}.

Definition denyingBrowser : Browser :=
  {| requestAnswer := Some perm_denied; constructorThrows := false |}.

Definition grantingBrowser : Browser :=
  {| requestAnswer := Some perm_granted; constructorThrows := false |}.

Definition readyNotification : NotificationOptions :=
  {| n_title := "Speaking Evaluation Ready!";
     n_body := "Your speaking test results are now available.";
     n_icon := None;
     n_tag := Some "speaking-eval-complete"%string;
     n_onClick := false |}.
(** * Properties *)

(** ** Numbers *)

Lemma num_le (n m : nat) : (n <= m)%nat -> num n <= num m.
Proof.
  intros H. unfold num. rewrite <- Zle_Qle. lia.
Qed.

Lemma num_pos (n : nat) : (0 < n)%nat -> 0 < num n.
Proof.
  intros H. unfold num. replace 0 with (inject_Z 0) by reflexivity.
  rewrite <- Zlt_Qlt. lia.
Qed.

Lemma Qltb_lt (a b : Q) : Qltb a b = true <-> a < b.
Proof.
  unfold Qltb. rewrite negb_true_iff. split; intros H.
  - apply Qnot_le_lt. intros Hle. apply Qle_bool_iff in Hle. congruence.
  - destruct (Qle_bool b a) eqn:E; trivial.
    apply Qle_bool_iff in E. exfalso. apply (Qlt_not_le _ _ H E).
Qed.

Lemma Qltb_ge (a b : Q) : Qltb a b = false <-> b <= a.
Proof.
  unfold Qltb. rewrite negb_false_iff. apply Qle_bool_iff.
Qed.

Lemma Qle_bool_false (a b : Q) : Qle_bool a b = false <-> b < a.
Proof.
  rewrite <- Qltb_lt. unfold Qltb. now rewrite negb_true_iff.
Qed.

(** ** Lists *)

Lemma last_app_nonempty {A : Type} (l1 l2 : list A) (d d' : A) :
  l2 <> [] -> last (l1 ++ l2) d = last l2 d'.
Proof.
  intros Hne. induction l1 as [|a l1 IH]; simpl.
  - destruct l2 as [|b l2]; [congruence|]. clear Hne.
    revert b. induction l2 as [|c l2 IH]; intros b; simpl; [reflexivity|].
    apply IH.
  - destruct (l1 ++ l2) eqn:E.
    + apply app_eq_nil in E. destruct E; congruence.
    + exact IH.
Qed.

Lemma filter_length_le {A : Type} (f : A -> bool) (l : list A) :
  (length (filter f l) <= length l)%nat.
Proof.
  induction l as [|a l IH]; simpl; [lia|]. destruct (f a); simpl; lia.
Qed.

Lemma scanPauses_acc (fs : list AudioFrame) :
  forall ps acc,
    scanPauses fs ps acc
    = (fst (scanPauses fs ps []), acc ++ snd (scanPauses fs ps [])).
Proof.
  induction fs as [|f fs IH]; intros ps acc; simpl.
  - now rewrite app_nil_r.
  - destruct (isSilent f), ps as [s|]; try apply IH.
    destruct (Qle_bool PAUSE_THRESHOLD_MS (timestamp f - s)).
    + simpl. rewrite (IH None (acc ++ _)), (IH None [_]). simpl.
      now rewrite <- app_assoc.
    + apply IH.
Qed.

Lemma scanPauses_app (a b : list AudioFrame) :
  forall ps acc,
    scanPauses (a ++ b) ps acc
    = scanPauses b (fst (scanPauses a ps acc)) (snd (scanPauses a ps acc)).
Proof.
  induction a as [|f a IH]; intros ps acc; simpl; [reflexivity|].
  destruct (isSilent f), ps as [s|]; apply IH.
Qed.

Lemma scanPauses_voiced (fs : list AudioFrame) :
  forallb voiced fs = true ->
  forall acc, scanPauses fs None acc = (None, acc).
Proof.
  unfold voiced.
  induction fs as [|f fs IH]; intros H acc; simpl in *; [reflexivity|].
  apply andb_true_iff in H. destruct H as [Hf H].
  apply negb_true_iff in Hf. rewrite Hf. now apply IH.
Qed.

Lemma scanPauses_silent (fs : list AudioFrame) :
  forallb isSilent fs = true ->
  forall s acc, scanPauses fs (Some s) acc = (Some s, acc).
Proof.
  induction fs as [|f fs IH]; intros H s acc; simpl in *; [reflexivity|].
  apply andb_true_iff in H. destruct H as [Hf H]. rewrite Hf. now apply IH.
Qed.

Lemma scanPauses_ends_voiced (fs : list AudioFrame) :
  endsVoiced fs = true ->
  forall acc, fst (scanPauses fs None acc) = None.
Proof.
  unfold endsVoiced. intros H acc.
  destruct (rev fs) as [|f r] eqn:E.
  - apply (f_equal (@rev _)) in E. rewrite rev_involutive in E. now subst.
  - apply (f_equal (@rev _)) in E. rewrite rev_involutive in E. simpl in E.
    subst fs. rewrite scanPauses_app. simpl in H. unfold voiced in H.
    apply negb_true_iff in H. simpl. rewrite H.
    now destruct (fst (scanPauses (rev r) None acc)).
Qed.

Lemma detectPauses_ends_voiced (fs : list AudioFrame) :
  endsVoiced fs = true ->
  scanPauses fs None [] = (None, detectPauses fs).
Proof.
  intros H. unfold detectPauses.
  pose proof (scanPauses_ends_voiced fs H []) as Hs.
  destruct (scanPauses fs None []) as [ps out]. simpl in Hs. now subst.
Qed.

Lemma detectPauses_voiced (fs : list AudioFrame) :
  forallb voiced fs = true -> detectPauses fs = [].
Proof.
  intros H. unfold detectPauses. now rewrite scanPauses_voiced.
Qed.

Lemma trailingPause_shift (fs gs : list AudioFrame) ps acc out :
  gs <> [] ->
  trailingPause (fs ++ gs) ps (acc ++ out) = acc ++ trailingPause gs ps out.
Proof.
  intros Hne. unfold trailingPause. destruct ps as [s|].
  - destruct gs as [|g gs]; [congruence|].
    destruct (fs ++ g :: gs) as [|x xs] eqn:E.
    + apply app_eq_nil in E. destruct E; congruence.
    + rewrite <- E. rewrite (last_app_nonempty fs (g :: gs) x g Hne).
      destruct (Qle_bool _ _); [now rewrite app_assoc | reflexivity].
  - now destruct (fs ++ gs), gs.
Qed.

(** The pauses of a recording split at a maximal run of silent frames. *)
Lemma detectPauses_run (pre run post : list AudioFrame) (p : Pause) :
  endsVoiced pre = true ->
  forallb isSilent run = true ->
  startsVoiced post = true ->
  runPause run post = Some p ->
  detectPauses (pre ++ run ++ post)
  = detectPauses pre ++ qualifies PAUSE_THRESHOLD_MS p ++ detectPauses post.
Proof.
  intros Hpre Hrun Hpost Hp.
  destruct run as [|f0 run]; [discriminate|].
  simpl in Hrun. apply andb_true_iff in Hrun. destruct Hrun as [Hf0 Hrun].
  unfold detectPauses at 1.
  rewrite scanPauses_app, (detectPauses_ends_voiced pre Hpre). simpl fst; simpl snd.
  rewrite scanPauses_app. simpl scanPauses at 2 3. rewrite Hf0.
  rewrite (scanPauses_silent run Hrun). simpl fst; simpl snd.
  destruct post as [|f post].
  - simpl scanPauses. cbv iota beta.
    rewrite <- (app_nil_r (detectPauses pre)) at 1.
    rewrite app_nil_r at 1.
    rewrite (trailingPause_shift pre (f0 :: run) _ (detectPauses pre) []) by discriminate.
    f_equal. simpl in Hp. injection Hp as <-.
    unfold trailingPause, qualifies, detectPauses. simpl duration.
    simpl scanPauses. rewrite app_nil_r.
    now destruct (Qle_bool _ _).
  - simpl in Hpost. unfold voiced in Hpost. apply negb_true_iff in Hpost.
    simpl in Hp. injection Hp as <-.
    simpl scanPauses. rewrite Hpost.
    unfold qualifies. simpl duration.
    set (d := timestamp f - timestamp f0).
    set (q := mkPause (timestamp f0) (timestamp f) d).
    assert (Hdp : detectPauses (f :: post)
                  = trailingPause (f :: post) (fst (scanPauses post None []))
                                  (snd (scanPauses post None []))).
    { unfold detectPauses. simpl scanPauses. rewrite Hpost.
      now destruct (scanPauses post None []). }
    rewrite Hdp.
    rewrite (scanPauses_acc post None (if Qle_bool _ _ then _ else _)).
    set (ps := fst (scanPauses post None [])).
    set (out := snd (scanPauses post None [])).
    replace (pre ++ (f0 :: run) ++ f :: post)
      with ((pre ++ f0 :: run) ++ f :: post) by now rewrite <- app_assoc.
    assert (Hsplit : forall A,
      trailingPause ((pre ++ f0 :: run) ++ f :: post) ps (A ++ out)
      = A ++ trailingPause (f :: post) ps out).
    { intros A. apply trailingPause_shift. discriminate. }
    destruct (Qle_bool PAUSE_THRESHOLD_MS d).
    + rewrite Hsplit. now rewrite <- app_assoc.
    + rewrite Hsplit. reflexivity.
Qed.

Lemma longPauses_app (l1 l2 : list Pause) :
  longPauses (l1 ++ l2) = longPauses l1 ++ longPauses l2.
Proof. apply filter_app. Qed.

Lemma longPauses_qualifies (p : Pause) :
  longPauses (qualifies PAUSE_THRESHOLD_MS p)
  = qualifies LONG_PAUSE_THRESHOLD_MS p.
Proof.
  unfold qualifies, longPauses.
  destruct (Qle_bool PAUSE_THRESHOLD_MS (duration p)) eqn:E1; simpl.
  - now destruct (Qle_bool LONG_PAUSE_THRESHOLD_MS (duration p)).
  - destruct (Qle_bool LONG_PAUSE_THRESHOLD_MS (duration p)) eqn:E2; trivial.
    apply Qle_bool_false in E1. apply Qle_bool_iff in E2.
    unfold PAUSE_THRESHOLD_MS, LONG_PAUSE_THRESHOLD_MS in *. lra.
Qed.

Lemma qualifies_true (t : Q) (p : Pause) :
  t <= duration p -> qualifies t p = [p].
Proof.
  intros H. unfold qualifies. apply Qle_bool_iff in H. now rewrite H.
Qed.

Section ProsodyFacts.

Variable Math_sqrt : Q -> Q.

Lemma analyzeProsody_pauseCount (a : AudioAnalysisResult) :
  pauseCount (analyzeProsody Math_sqrt a)
  = num (length (detectPauses (frames a))).
Proof.
  unfold analyzeProsody. now destruct (frames a).
Qed.

Lemma analyzeProsody_longPauseCount (a : AudioAnalysisResult) :
  longPauseCount (analyzeProsody Math_sqrt a)
  = num (length (longPauses (detectPauses (frames a)))).
Proof.
  unfold analyzeProsody. now destruct (frames a).
Qed.

Lemma analyzeProsody_intonation (a : AudioAnalysisResult) :
  intonationPatterns (analyzeProsody Math_sqrt a)
  = detectIntonation (frames a).
Proof.
  unfold analyzeProsody. now destruct (frames a).
Qed.

(** C8.  For every frame sequence, the metrics returned by
    [analyzeProsody] satisfy [longPauseCount <= pauseCount]. *)
Theorem longPauseCount_le_pauseCount (a : AudioAnalysisResult) :
  longPauseCount (analyzeProsody Math_sqrt a)
  <= pauseCount (analyzeProsody Math_sqrt a).
Proof.
  rewrite analyzeProsody_pauseCount, analyzeProsody_longPauseCount.
  apply num_le, filter_length_le.
Qed.

End ProsodyFacts.


(** ** The intonation loop *)

Lemma intonationAt_timestamp fs i fi e :
  intonationAt fs i fi = Some e -> ie_timestamp e = timestamp fi.
Proof.
  unfold intonationAt. destruct (filter _ _) as [|w0 w]; [discriminate|].
  destruct (_ <? _)%nat; [discriminate|]. now intros [= <-].
Qed.

Lemma intonationAt_magnitude_nonneg fs i fi e :
  intonationAt fs i fi = Some e -> 0 <= magnitude e.
Proof.
  unfold intonationAt. destruct (filter _ _) as [|w0 w]; [discriminate|].
  destruct (_ <? _)%nat; [discriminate|]. intros [= <-]. simpl.
  apply Qabs_nonneg.
Qed.

(** What the loop adds to [acc]: at most one event for each index
    [i, i + 5, ...] below the length, each one the event of its index. *)
Lemma intonationLoop_spec (fs : list AudioFrame) :
  forall fuel i acc,
  exists new,
    intonationLoop fuel fs i acc = acc ++ new
    /\ (length new <= (length fs - i + 4) / 5)%nat
    /\ Forall (fun e => exists m fi,
                 nth_error fs (i + 5 * m) = Some fi
                 /\ intonationAt fs (i + 5 * m) fi = Some e) new.
Proof.
  induction fuel as [|fuel IH]; intros i acc; cbn [intonationLoop].
  - exists []. rewrite app_nil_r. repeat split; [apply Nat.le_0_l | constructor].
  - destruct (nth_error fs i) as [fi|] eqn:Hi.
    + assert (Hlt : (i < length fs)%nat).
      { apply nth_error_Some. congruence. }
      assert (Hdiv : (1 + (length fs - (i + windowSize) + 4) / 5
                      <= (length fs - i + 4) / 5)%nat).
      { unfold windowSize.
        replace (length fs - i + 4)%nat
          with (1 * 5 + (length fs - i - 1))%nat by lia.
        rewrite Nat.div_add_l by lia.
        apply Nat.add_le_mono_l.
        destruct (le_lt_dec (i + 5) (length fs)) as [Hge|Hless].
        - apply Nat.Div0.div_le_mono. lia.
        - replace (length fs - (i + 5))%nat with 0%nat by lia.
          apply Nat.le_0_l. }
      assert (Hshift : forall m, (i + windowSize + 5 * m = i + 5 * S m)%nat).
      { intros m. unfold windowSize. lia. }
      destruct (intonationAt fs i fi) as [e|] eqn:He.
      * destruct (IH (i + windowSize)%nat (acc ++ [e])) as (new & Heq & Hlen & Hall).
        exists (e :: new). rewrite Heq, <- app_assoc. cbn [app length].
        repeat split; [lia|]. constructor.
        -- exists 0%nat, fi. now rewrite Nat.mul_0_r, Nat.add_0_r.
        -- eapply Forall_impl; [|exact Hall]. intros e' (m & fm & H1 & H2).
           exists (S m), fm. now rewrite <- Hshift.
      * destruct (IH (i + windowSize)%nat acc) as (new & Heq & Hlen & Hall).
        exists new. repeat split; [exact Heq | lia |].
        eapply Forall_impl; [|exact Hall]. intros e' (m & fm & H1 & H2).
        exists (S m), fm. now rewrite <- Hshift.
    + exists []. rewrite app_nil_r. repeat split; [apply Nat.le_0_l | constructor].
Qed.

(** More fuel than one unit per frame changes nothing: the loop ends by
    its own test. *)
Lemma intonationLoop_fuel (fs : list AudioFrame) :
  forall fuel i acc,
    (length fs <= i + 5 * fuel)%nat ->
    intonationLoop (S fuel) fs i acc = intonationLoop fuel fs i acc.
Proof.
  induction fuel as [|fuel IH]; intros i acc H.
  - simpl. destruct (nth_error fs i) eqn:E; [|reflexivity].
    assert (i < length fs)%nat by (apply nth_error_Some; congruence). lia.
  - change (intonationLoop (S (S fuel)) fs i acc)
      with (match nth_error fs i with
            | None => acc
            | Some fi =>
                intonationLoop (S fuel) fs (i + windowSize)
                  (match intonationAt fs i fi with
                   | Some e => acc ++ [e]
                   | None => acc
                   end)
            end).
    simpl. destruct (nth_error fs i); [|reflexivity].
    apply IH. unfold windowSize. lia.
Qed.


(** [detectIntonation] does not depend on its fuel: with any larger amount
    the loop returns the same events. *)
Lemma detectIntonation_fuel (fs : list AudioFrame) (extra : nat) :
  intonationLoop (length fs + extra) fs windowSize [] = detectIntonation fs.
Proof.
  unfold detectIntonation.
  induction extra as [|extra IH]; [now rewrite Nat.add_0_r|].
  rewrite Nat.add_succ_r, intonationLoop_fuel; [exact IH|]. lia.
Qed.

Lemma detectIntonation_short (fs : list AudioFrame) :
  (length fs <= 5)%nat -> detectIntonation fs = [].
Proof.
  intros H. unfold detectIntonation. destruct (length fs) eqn:E; [reflexivity|].
  cbn [intonationLoop]. unfold windowSize.
  destruct (nth_error fs 5) eqn:E5; [|reflexivity].
  assert (5 < length fs)%nat by (apply nth_error_Some; congruence). lia.
Qed.

(** Each event is the one of a window followed by a frame. *)
Lemma detectIntonation_events (fs : list AudioFrame) (e : IntonationEvent) :
  In e (detectIntonation fs) ->
  exists k fk,
    (1 <= k)%nat
    /\ nth_error fs (5 * k) = Some fk
    /\ intonationAt fs (5 * k) fk = Some e.
Proof.
  intros Hin.
  destruct (intonationLoop_spec fs (length fs) windowSize [])
    as (new & Heq & _ & Hall).
  change (intonationLoop (length fs) fs windowSize [])
    with (detectIntonation fs) in Heq.
  simpl in Heq. rewrite Heq in Hin.
  rewrite Forall_forall in Hall.
  destruct (Hall e Hin) as (m & fm & H1 & H2).
  exists (S m), fm.
  replace (5 * S m)%nat with (windowSize + 5 * m)%nat
    by (unfold windowSize; lia).
  repeat split; [lia | exact H1 | exact H2].
Qed.

Lemma detectIntonation_count (fs : list AudioFrame) :
  (5 < length fs)%nat ->
  (length (detectIntonation fs) <= (length fs - 1) / 5)%nat.
Proof.
  intros Hl.
  destruct (intonationLoop_spec fs (length fs) windowSize [])
    as (new & Heq & Hlen & _).
  change (intonationLoop (length fs) fs windowSize [])
    with (detectIntonation fs) in Heq.
  simpl in Heq. rewrite Heq. unfold windowSize in Hlen.
  now replace (length fs - 5 + 4)%nat with (length fs - 1)%nat in Hlen by lia.
Qed.

Section IntonationFacts.

Variable Math_sqrt : Q -> Q.

(** C9, amended.  [analyzeProsody] classifies a window only when a frame
    follows it.  For every frame sequence that is not empty the number of
    intonation events is at most [floor ((frames.length - 1) / 5)]; a
    recording of 5 or fewer frames (the empty one too) has no event; and
    each event is the one of a window [frames[5k-5 .. 5k-1]], [1 <= k],
    that is followed by a frame [frames[5k]], whose timestamp is the
    timestamp of the event. *)
Theorem intonation_windows_need_following_frame (a : AudioAnalysisResult) :
  (frames a <> [] ->
   (Z.of_nat (length (intonationPatterns (analyzeProsody Math_sqrt a)))
    <= (Z.of_nat (length (frames a)) - 1) / 5)%Z)
  /\ ((length (frames a) <= 5)%nat ->
      intonationPatterns (analyzeProsody Math_sqrt a) = [])
  /\ (forall e,
        In e (intonationPatterns (analyzeProsody Math_sqrt a)) ->
        exists k fk,
          (1 <= k)%nat
          /\ nth_error (frames a) (5 * k) = Some fk
          /\ intonationAt (frames a) (5 * k) fk = Some e
          /\ ie_timestamp e = timestamp fk).
Proof.
  rewrite analyzeProsody_intonation. set (fs := frames a).
  split; [|split].
  - intros Hne. destruct (le_lt_dec (length fs) 5) as [Hs|Hl].
    + rewrite (detectIntonation_short fs Hs). simpl.
      apply Z.div_pos; [|lia].
      destruct fs; [congruence|]. simpl length. lia.
    + pose proof (detectIntonation_count fs Hl) as Hlen.
      apply Nat2Z.inj_le in Hlen.
      rewrite Nat2Z.inj_div, Nat2Z.inj_sub in Hlen by lia.
      exact Hlen.
  - apply detectIntonation_short.
  - intros e Hin.
    destruct (detectIntonation_events fs e Hin) as (k & fk & Hk & H1 & H2).
    exists k, fk. repeat split; trivial.
    eapply intonationAt_timestamp; exact H2.
Qed.

(** C5, evaluated.  On six voiced frames whose pitch rises from 100 Hz to
    300 Hz inside the first window, [analyzeProsody] returns one rising
    event with magnitude 200, which is not in [0, 100]. *)
Theorem intonation_magnitude_not_capped :
  exists e,
    intonationPatterns (analyzeProsody Math_sqrt risingAudio) = [e]
    /\ ie_timestamp e == 500
    /\ ie_type e = rising
    /\ magnitude e == 200
    /\ ~ magnitude e <= 100.
Proof.
  rewrite analyzeProsody_intonation.
  eexists. split; [vm_compute; reflexivity|].
  simpl. repeat split; try reflexivity.
  intros H. apply Qle_bool_iff in H. discriminate H.
Qed.

(** The lower bound of the documented range does hold: no magnitude is
    negative. *)
Lemma intonation_magnitude_nonneg (a : AudioAnalysisResult) (e : IntonationEvent) :
  In e (intonationPatterns (analyzeProsody Math_sqrt a)) -> 0 <= magnitude e.
Proof.
  rewrite analyzeProsody_intonation. intros Hin.
  destruct (detectIntonation_events _ e Hin) as (k & fk & _ & _ & H).
  eapply intonationAt_magnitude_nonneg; exact H.
Qed.

End IntonationFacts.


(** ** The fluency calculator *)

Lemma quot_Ok (a b : Q) : ~ b == 0 -> quot a b = Ok (a / b).
Proof.
  intros H. unfold quot, JS.div.
  destruct (Qeq_bool b 0) eqn:E; [|reflexivity].
  apply Qeq_bool_iff in E. contradiction.
Qed.

Lemma quot_pos (a b : Q) : Qltb 0 b = true -> quot a b = Ok (a / b).
Proof.
  intros H. apply quot_Ok. apply Qltb_lt in H. intros E. rewrite E in H.
  apply (Qlt_irrefl 0 H).
Qed.

(** The checked computation never divides by zero and returns the values
    of the plain formulas. *)
Lemma calculateFluency_Ok (words : list WordConfidence)
    (a : AudioAnalysisResult) (p : ProsodyMetrics) (d : Q) :
  calculateFluency words a p d = Ok (fluencyOf words a p d).
Proof.
  unfold calculateFluency, fluencyOf, wpmOf, ratioOf.
  rewrite (quot_Ok d 60000) by discriminate. cbn [bind].
  destruct (Qltb 0 (d / 60000)) eqn:Ed.
  - rewrite (quot_pos _ _ Ed). cbn [bind].
    destruct (Qltb 0 (num (length words))) eqn:Ew.
    + rewrite (quot_pos _ _ Ew). cbn [bind].
      rewrite quot_Ok by discriminate. reflexivity.
    + cbn [bind]. rewrite quot_Ok by discriminate. reflexivity.
  - cbn [bind].
    destruct (Qltb 0 (num (length words))) eqn:Ew.
    + rewrite (quot_pos _ _ Ew). cbn [bind].
      rewrite quot_Ok by discriminate. reflexivity.
    + cbn [bind]. rewrite quot_Ok by discriminate. reflexivity.
Qed.

(** C10.  [calculateFluency] returns a record of finite numbers for every
    input: no division by zero is ever performed.  For an empty word list
    the record has [fillerRatio = 0], [fillerCount = 0] and
    [repetitionCount = 0]; for [durationMs = 0] it has
    [wordsPerMinute = 0]. *)
Theorem calculateFluency_total (words : list WordConfidence)
    (a : AudioAnalysisResult) (p : ProsodyMetrics) (d : Q) :
  exists m,
    calculateFluency words a p d = Ok m
    /\ (words = [] ->
        fillerRatio m = 0 /\ fillerCount m = 0 /\ repetitionCount m = 0)
    /\ (d == 0 -> wordsPerMinute m = 0).
Proof.
  exists (fluencyOf words a p d). split; [apply calculateFluency_Ok|]. split.
  - intros ->. repeat split.
  - intros Hd. simpl. unfold wpmOf.
    destruct (Qltb 0 (d / 60000)) eqn:E; [|reflexivity].
    apply Qltb_lt in E. rewrite Hd in E. discriminate E.
Qed.


(** *** Clamping *)

Ltac qcase a b :=
  let E := fresh "E" in
  destruct (Qle_bool a b) eqn:E;
  [apply Qle_bool_iff in E | apply Qle_bool_false in E].

Ltac qcases :=
  repeat match goal with
  | |- context [Qle_bool ?a ?b] => qcase a b
  | H : context [Qle_bool ?a ?b] |- _ => qcase a b
  end.

Lemma clamp_range (x : Q) :
  0 <= Math_max 0 (Math_min 100 x) <= 100.
Proof.
  unfold Math_max, Math_min. qcases; split; lra.
Qed.

Lemma clamp_mono (x y : Q) :
  x <= y -> Math_max 0 (Math_min 100 x) <= Math_max 0 (Math_min 100 y).
Proof.
  intros H. unfold Math_max, Math_min. qcases; lra.
Qed.

Lemma clamp_strict (x y : Q) :
  x < y -> y <= 100 -> 0 < Math_max 0 (Math_min 100 y) ->
  Math_max 0 (Math_min 100 x) < Math_max 0 (Math_min 100 y).
Proof.
  unfold Math_max, Math_min. intros H Hy. qcases; intros H0; lra.
Qed.

Lemma hesitationOf_antitone (pc f1 f2 rc lpc : Q) :
  f1 <= f2 -> hesitationOf pc f2 rc lpc <= hesitationOf pc f1 rc lpc.
Proof.
  intros H. unfold hesitationOf. apply clamp_mono. lra.
Qed.

Lemma hesitationOf_range (pc f rc lpc : Q) :
  0 <= hesitationOf pc f rc lpc <= 100.
Proof. apply clamp_range. Qed.

Lemma half (x : Q) : x / 2 == x * (1 # 2).
Proof. reflexivity. Qed.

Lemma scoreOf_antitone (wpm r1 r2 lpc ratio h1 h2 : Q) :
  r1 <= r2 -> h2 <= h1 ->
  scoreOf wpm r2 lpc ratio h2 <= scoreOf wpm r1 lpc ratio h1.
Proof.
  intros Hr Hh. unfold scoreOf.
  destruct (Qltb wpm 100), (Qltb 200 wpm), (Qltb ratio (4 # 10));
    apply clamp_mono; rewrite !half; lra.
Qed.

Lemma scoreOf_strict (wpm r1 r2 lpc ratio h1 h2 : Q) :
  0 <= r1 -> r1 < r2 -> h2 <= h1 -> h1 <= 100 -> 0 <= lpc ->
  0 < scoreOf wpm r1 lpc ratio h1 ->
  scoreOf wpm r2 lpc ratio h2 < scoreOf wpm r1 lpc ratio h1.
Proof.
  intros H0 Hr Hh H100 Hl. unfold scoreOf.
  destruct (Qltb wpm 100) eqn:E1;
    [apply Qltb_lt in E1
    |destruct (Qltb 200 wpm) eqn:E2; [apply Qltb_lt in E2|]];
    (destruct (Qltb ratio (4 # 10)) eqn:E3; [apply Qltb_lt in E3|]);
    apply clamp_strict; rewrite ?half; lra.
Qed.

Lemma ratioOf_nonneg (f n : Q) : 0 <= f -> 0 <= ratioOf f n.
Proof.
  intros Hf. unfold ratioOf. destruct (Qltb 0 n) eqn:E; [|lra].
  apply Qltb_lt in E. apply Qle_shift_div_l; [exact E | lra].
Qed.

Lemma ratioOf_strict (f1 f2 n : Q) :
  f1 < f2 -> 0 < n -> ratioOf f1 n < ratioOf f2 n.
Proof.
  intros Hf Hn. unfold ratioOf.
  assert (E : Qltb 0 n = true) by now apply Qltb_lt.
  rewrite E. unfold Qdiv. apply Qmult_lt_compat_r; [|exact Hf].
  now apply Qinv_lt_0_compat.
Qed.

Lemma num_lt (n m : nat) : (n < m)%nat -> num n < num m.
Proof.
  intros H. unfold num. rewrite <- Zlt_Qlt. lia.
Qed.

(** C6, amended.  Hold the word count, the repetition count, the prosody,
    the audio result and the duration fixed, and flag strictly more words
    as fillers.  Then [fillerRatio] strictly increases and
    [overallFluencyScore] does not increase; it strictly decreases when the
    score with fewer fillers is above 0 (for a [longPauseCount] that is not
    negative).  At 0 the clamp makes both scores equal. *)
Theorem more_fillers_lower_fluency (w1 w2 : list WordConfidence)
    (a : AudioAnalysisResult) (p : ProsodyMetrics) (d : Q)
    (m1 m2 : FluencyMetrics) :
  length w1 = length w2 ->
  length (filter isRepeat w1) = length (filter isRepeat w2) ->
  (length (filter isFiller w1) < length (filter isFiller w2))%nat ->
  calculateFluency w1 a p d = Ok m1 ->
  calculateFluency w2 a p d = Ok m2 ->
  fillerRatio m1 < fillerRatio m2
  /\ overallFluencyScore m2 <= overallFluencyScore m1
  /\ (0 <= longPauseCount p ->
      0 < overallFluencyScore m1 ->
      overallFluencyScore m2 < overallFluencyScore m1).
Proof.
  intros Hlen Hrep Hfil H1 H2.
  rewrite calculateFluency_Ok in H1, H2.
  injection H1 as <-. injection H2 as <-.
  unfold fluencyOf. cbn [fillerRatio overallFluencyScore].
  unfold repeatsOf. rewrite Hlen, Hrep.
  assert (Hf : fillersOf w1 < fillersOf w2) by now apply num_lt.
  assert (Hn : 0 < num (length w2)).
  { apply num_pos. pose proof (filter_length_le isFiller w2). lia. }
  assert (Hf0 : 0 <= fillersOf w1).
  { unfold fillersOf. change 0 with (num 0). apply num_le. lia. }
  pose proof (ratioOf_strict _ _ _ Hf Hn) as Hr.
  pose proof (ratioOf_nonneg _ (num (length w2)) Hf0) as Hr0.
  set (rc := num (length (filter isRepeat w2))).
  pose proof (hesitationOf_antitone (pauseCount p) _ _ rc (longPauseCount p)
                (Qlt_le_weak _ _ Hf)) as Hh.
  pose proof (hesitationOf_range (pauseCount p) (fillersOf w1) rc
                (longPauseCount p)) as [_ Hh100].
  split; [exact Hr|]. split.
  - apply scoreOf_antitone; [apply Qlt_le_weak; exact Hr | exact Hh].
  - intros Hl Hpos. apply scoreOf_strict; trivial.
Qed.

(** C6 as stated fails where the score is clamped at 0: two transcripts of
    two words, the second with one more filler, in a recording with 25 long
    pauses, have different filler ratios and the same score 0. *)
Lemma fluency_not_strict_at_zero :
  exists m1 m2,
    calculateFluency plainWords haltingAudio haltingProsody 120000 = Ok m1
    /\ calculateFluency fillerWords haltingAudio haltingProsody 120000 = Ok m2
    /\ length plainWords = length fillerWords
    /\ length (filter isRepeat plainWords) = length (filter isRepeat fillerWords)
    /\ fillerRatio m1 < fillerRatio m2
    /\ ~ overallFluencyScore m2 < overallFluencyScore m1.
Proof.
  exists (fluencyOf plainWords haltingAudio haltingProsody 120000),
         (fluencyOf fillerWords haltingAudio haltingProsody 120000).
  rewrite !calculateFluency_Ok. repeat split.
  intros H. vm_compute in H. discriminate H.
Qed.


(** ** The session hook *)

Lemma fold_confidence (ws : list WordConfidence) :
  forall acc,
    fold_left (fun sum w => sum + confidence w) ws acc
    = fold_left Qplus (map confidence ws) acc.
Proof.
  induction ws as [|w ws IH]; intros acc; simpl; [reflexivity|]. apply IH.
Qed.

Lemma Math_round_comp (x y : Q) : x == y -> Math_round x = Math_round y.
Proof.
  intros H. unfold Math_round. apply Qfloor_comp. now rewrite H.
Qed.

(** *** The clarity score, in doubles *)




(** The sum is the sum of the doubles.  At one word of confidence 60, a
    fluency score of 97, a pitch variation of 6 and a rhythm consistency
    of 50 the terms are 24, 29.099999999999998, 0.8999999999999999 and
    7.5, the sum is 61.49999999999999 and the score is 61; the same terms
    added as exact rationals are 61.5, which rounds to 62. *)
Lemma clarity_score_below_an_exact_tie :
  Doubles.overallClarityScore oneWordAtSixty 97 6 50 = 61%float
  /\ (Doubles.avgConfidence oneWordAtSixty * 0.4 + 97 * 0.3 + 6 * 0.15
      + 50 * 0.15)%float
     = 61.49999999999999%float
  /\ clarityFormula 60 97 6 50 = 62%Z.
Proof.
  repeat split.
Qed.

Section SessionFacts.

Variable Math_sqrt : Q -> Q.
Variable createEmptyConfidences : string -> list WordConfidence.

(** C2.  When the transcript [stop] works on (the accumulated final text,
    or else the last interim text, trimmed) is empty, [stop] returns
    [null], whatever the audio extractor has captured. *)
Theorem empty_transcript_no_result (h : Hook) (now : Q) :
  bestTranscript h = ""%string ->
  stop Math_sqrt createEmptyConfidences h now = Ok (detach h, None).
Proof.
  intros He. unfold stop. now rewrite He.
Qed.

End SessionFacts.

(** C7.  A recognition error with code [no-speech] or [aborted] changes
    nothing and calls no callback.  Every other code sets the error state
    to the error of that code and calls the caller's [onError] callback
    with it (when one is registered); the flags and references of the
    session are untouched, so capture goes on and an end of the recognition
    is still followed by a restart. *)
Theorem onerror_surfaces_only_real_errors (options : Options) (h : Hook)
    (code : string) :
  ((code = "no-speech" \/ code = "aborted")%string ->
   onerror options h code = (h, []))
  /\ (code <> "no-speech"%string -> code <> "aborted"%string ->
      let err := mkError ("Speech recognition error: " ++ code) in
      let h' := fst (onerror options h code) in
      error h' = Some err
      /\ snd (onerror options h code)
         = (if onError options then [CallOnError err] else [])
      /\ isAnalyzing h' = isAnalyzing h
      /\ isAnalyzingRef h' = isAnalyzingRef h
      /\ recognitionRef h' = recognitionRef h
      /\ audioExtractorRef h' = audioExtractorRef h
      /\ wordTrackerRef h' = wordTrackerRef h
      /\ finalTranscriptRef h' = finalTranscriptRef h
      /\ interimTranscript h' = interimTranscript h
      /\ onend h' = onend h).
Proof.
  split.
  - intros [-> | ->]; reflexivity.
  - intros H1 H2. unfold onerror.
    apply String.eqb_neq in H1, H2. rewrite H1, H2. simpl.
    repeat split.
Qed.


(** ** Silent runs at the 100 ms cadence *)

Lemma num_add (n m : nat) : num (n + m) == num n + num m.
Proof.
  unfold num. now rewrite Nat2Z.inj_add, inject_Z_plus.
Qed.

Lemma nth_error_last {A : Type} (l : list A) (d : A) :
  l <> [] -> nth_error l (length l - 1) = Some (last l d).
Proof.
  induction l as [|a l IH]; [congruence|]. intros _.
  destruct l as [|b l]; [reflexivity|].
  replace (length (a :: b :: l) - 1)%nat with (S (length (b :: l) - 1))
    by (simpl; lia).
  apply IH. discriminate.
Qed.

(** A run of silent frames inside the recording is measured up to the
    frame that follows it: [k] frames give [100 k] ms. *)
Lemma interior_run_duration (pre run post : list AudioFrame)
    (f : AudioFrame) (p : Pause) :
  atCadence 0 (pre ++ run ++ f :: post) ->
  runPause run (f :: post) = Some p ->
  duration p == num (length run) * 100.
Proof.
  intros Hc Hp. destruct run as [|f0 run]; [discriminate|].
  simpl in Hp. injection Hp as <-. simpl duration.
  rewrite (Hc (length pre) f0), (Hc (length pre + length (f0 :: run))%nat f).
  - simpl Nat.add. simpl length. rewrite !num_add. ring.
  - rewrite app_assoc, nth_error_app2; rewrite length_app; [|lia].
    now rewrite Nat.sub_diag.
  - rewrite nth_error_app2 by lia. now rewrite Nat.sub_diag.
Qed.

(** A run of silent frames that ends the recording is measured up to its
    own last frame: [k] frames give [100 (k - 1)] ms. *)
Lemma trailing_run_duration (pre run : list AudioFrame) (p : Pause) :
  atCadence 0 (pre ++ run) ->
  runPause run [] = Some p ->
  duration p == (num (length run) - 1) * 100.
Proof.
  intros Hc Hp. destruct run as [|f0 run]; [discriminate|].
  simpl in Hp. injection Hp as <-. simpl duration.
  rewrite (Hc (length pre) f0).
  - rewrite (Hc (length pre + length run)%nat
               (match run with [] => f0 | _ :: _ => last run f0 end)).
    + simpl Nat.add. rewrite !num_add.
      change (length (f0 :: run)) with (1 + length run)%nat.
      rewrite num_add. change (num 1) with 1. ring.
    + rewrite nth_error_app2 by lia.
      replace (length pre + length run - length pre)%nat
        with (length (f0 :: run) - 1)%nat by (simpl; lia).
      apply (nth_error_last (f0 :: run) f0). discriminate.
  - rewrite nth_error_app2 by lia. now rewrite Nat.sub_diag.
Qed.

Lemma qualifies_iff (t : Q) (p : Pause) :
  qualifies t p = [p] <-> t <= duration p.
Proof.
  unfold qualifies. rewrite <- Qle_bool_iff.
  destruct (Qle_bool t (duration p)); split; congruence.
Qed.

(** At the cadence, a run inside the recording is a pause from five frames
    on, a run at its end only from six frames on. *)
Lemma run_at_cadence (pre run post : list AudioFrame) (p : Pause) :
  atCadence 0 (pre ++ run ++ post) ->
  runPause run post = Some p ->
  (post <> [] ->
   (qualifies PAUSE_THRESHOLD_MS p = [p] <-> (5 <= length run)%nat))
  /\ (post = [] ->
      (qualifies PAUSE_THRESHOLD_MS p = [p] <-> (6 <= length run)%nat)).
Proof.
  intros Hc Hp. unfold PAUSE_THRESHOLD_MS. split; intros Hpost.
  - destruct post as [|f post]; [congruence|].
    rewrite qualifies_iff, (interior_run_duration pre run post f p Hc Hp).
    split; intros H.
    + destruct (le_lt_dec 5 (length run)) as [|Hlt]; trivial.
      apply num_le in Hlt. change (num 5) with 5 in Hlt.
      assert (num (S (length run)) == num (length run) + 1).
      { change (S (length run)) with (1 + length run)%nat.
        rewrite num_add. change (num 1) with 1. ring. }
      lra.
    + apply num_le in H. change (num 5) with 5 in H. lra.
  - subst post. rewrite app_nil_r in Hc.
    rewrite qualifies_iff, (trailing_run_duration pre run p Hc Hp).
    split; intros H.
    + destruct (le_lt_dec 6 (length run)) as [|Hlt]; trivial.
      apply num_le in Hlt. change (num 6) with 6 in Hlt.
      assert (num (S (length run)) == num (length run) + 1).
      { change (S (length run)) with (1 + length run)%nat.
        rewrite num_add. change (num 1) with 1. ring. }
      lra.
    + apply num_le in H. change (num 6) with 6 in H. lra.
Qed.

Lemma voiced_startsVoiced (fs : list AudioFrame) :
  forallb voiced fs = true -> startsVoiced fs = true.
Proof.
  destruct fs as [|f fs]; [reflexivity|]. simpl. intros H.
  now apply andb_true_iff in H.
Qed.

Lemma voiced_endsVoiced (fs : list AudioFrame) :
  forallb voiced fs = true -> endsVoiced fs = true.
Proof.
  intros H. unfold endsVoiced. apply voiced_startsVoiced.
  rewrite forallb_forall in *. intros f Hin. apply H.
  now apply in_rev.
Qed.

Lemma atCadenceb_sound (fs : list AudioFrame) :
  forall n, atCadenceb n fs = true -> atCadence n fs.
Proof.
  induction fs as [|f fs IH]; intros n H k g Hk.
  - destruct k; discriminate Hk.
  - simpl in H. apply andb_true_iff in H. destruct H as [H0 Hrest].
    destruct k as [|k]; simpl in Hk.
    + injection Hk as <-. apply Qeq_bool_iff in H0.
      now rewrite Nat.add_0_r.
    + replace (n + S k)%nat with (S n + k)%nat by lia.
      now apply (IH (S n) Hrest k g).
Qed.

Lemma qualifies_length (t : Q) (p : Pause) :
  length (qualifies t p) = countedIf (Qle_bool t (duration p)).
Proof.
  unfold qualifies. now destruct (Qle_bool t (duration p)).
Qed.

Lemma Qle_bool_eq (t x d : Q) :
  x == d -> Qle_bool t x = Qle_bool t d.
Proof.
  intros H.
  destruct (Qle_bool t x) eqn:E1, (Qle_bool t d) eqn:E2; trivial.
  - apply Qle_bool_iff in E1. apply Qle_bool_false in E2. lra.
  - apply Qle_bool_iff in E2. apply Qle_bool_false in E1. lra.
Qed.

(** A threshold on a duration that is [c] short of [d] is the threshold
    [t + c] on [d]. *)
Lemma Qle_bool_shift (t c x d : Q) :
  x == d - c -> Qle_bool t x = Qle_bool (t + c) d.
Proof.
  intros H.
  destruct (Qle_bool t x) eqn:E1, (Qle_bool (t + c) d) eqn:E2; trivial.
  - apply Qle_bool_iff in E1. apply Qle_bool_false in E2. lra.
  - apply Qle_bool_iff in E2. apply Qle_bool_false in E1. lra.
Qed.

Section CadenceFacts.

Variable Math_sqrt : Q -> Q.

(** C4, evaluated.  Five silent frames after a voiced one are a pause
    when a voiced frame follows them, and are no pause when the recording
    ends with them: the trailing run is measured as 400 ms. *)
Theorem trailing_run_measured_one_frame_short :
  pauseCount (analyzeProsody Math_sqrt interiorAudio) = 1
  /\ pauseCount (analyzeProsody Math_sqrt trailingAudio) = 0
  /\ runPause fiveSilent [frameAt 6 false 200] = Some (mkPause 100 600 500)
  /\ runPause fiveSilent [] = Some (mkPause 100 500 400).
Proof.
  rewrite !analyzeProsody_pauseCount. repeat split.
Qed.

(** Sixteen silent frames among voiced ones, wherever they are in a
    recording at the cadence, are one pause and one long pause: they are
    measured as 1600 ms inside the recording and as 1500 ms at its end. *)
Lemma sixteen_silent_frames (pre run post : list AudioFrame)
    (a : AudioAnalysisResult) :
  atCadence 0 (pre ++ run ++ post) ->
  forallb voiced pre = true ->
  forallb isSilent run = true ->
  forallb voiced post = true ->
  length run = 16%nat ->
  frames a = pre ++ run ++ post ->
  pauseCount (analyzeProsody Math_sqrt a) = 1
  /\ longPauseCount (analyzeProsody Math_sqrt a) = 1.
Proof.
  intros Hc Vpre Hrun Vpost Hlen Hfs.
  destruct (runPause run post) as [p|] eqn:Hp;
    [|destruct run; [discriminate Hlen | discriminate Hp]].
  assert (Hd : 1500 <= duration p).
  { destruct post as [|f post].
    - rewrite app_nil_r in Hc.
      rewrite (trailing_run_duration pre run p Hc Hp), Hlen.
      apply Qle_bool_iff. reflexivity.
    - rewrite (interior_run_duration pre run post f p Hc Hp), Hlen.
      apply Qle_bool_iff. reflexivity. }
  pose proof (detectPauses_run pre run post p (voiced_endsVoiced pre Vpre)
                Hrun (voiced_startsVoiced post Vpost) Hp) as Hall.
  rewrite analyzeProsody_pauseCount, analyzeProsody_longPauseCount, Hfs, Hall.
  rewrite (detectPauses_voiced pre Vpre), (detectPauses_voiced post Vpost).
  rewrite !longPauses_app, longPauses_qualifies.
  rewrite !qualifies_true.
  - split; reflexivity.
  - exact Hd.
  - unfold PAUSE_THRESHOLD_MS. lra.
Qed.

(** C3.  In a recording at the 100 ms cadence let [run] be a maximal run
    of silent frames, of duration [runDuration run] (100 ms for each
    frame).  When a frame follows the run, it adds one pause exactly when
    its duration is at least 500 ms and one long pause exactly when its
    duration is at least 1500 ms, as the specification says.  When the
    run ends the recording, it adds a pause only when its duration is at
    least 600 ms and a long pause only when it is at least 1600 ms: a
    trailing run of 500 ms is no pause and one of 1500 ms is no long
    pause.  A run of 1600 ms among frames that are not silent gives
    [pauseCount = 1] and [longPauseCount = 1] in either place. *)
Theorem silent_run_counted_by_position (pre run post : list AudioFrame) :
  atCadence 0 (pre ++ run ++ post) ->
  endsVoiced pre = true ->
  forallb isSilent run = true ->
  run <> [] ->
  startsVoiced post = true ->
  (post <> [] ->
   length (detectPauses (pre ++ run ++ post))
   = (length (detectPauses pre)
      + countedIf (Qle_bool PAUSE_THRESHOLD_MS (runDuration run))
      + length (detectPauses post))%nat
   /\ length (longPauses (detectPauses (pre ++ run ++ post)))
      = (length (longPauses (detectPauses pre))
         + countedIf (Qle_bool LONG_PAUSE_THRESHOLD_MS (runDuration run))
         + length (longPauses (detectPauses post)))%nat)
  /\ (post = [] ->
      length (detectPauses (pre ++ run ++ post))
      = (length (detectPauses pre)
         + countedIf (Qle_bool (PAUSE_THRESHOLD_MS + 100) (runDuration run)))%nat
      /\ length (longPauses (detectPauses (pre ++ run ++ post)))
         = (length (longPauses (detectPauses pre))
            + countedIf (Qle_bool (LONG_PAUSE_THRESHOLD_MS + 100)
                                 (runDuration run)))%nat)
  /\ (forallb voiced pre = true ->
      forallb voiced post = true ->
      runDuration run == 1600 ->
      forall a : AudioAnalysisResult,
        frames a = pre ++ run ++ post ->
        pauseCount (analyzeProsody Math_sqrt a) = 1
        /\ longPauseCount (analyzeProsody Math_sqrt a) = 1).
Proof.
  intros Hc Hpre Hrun Hne Hpost.
  destruct (runPause run post) as [p|] eqn:Hp;
    [|destruct run; [congruence | discriminate Hp]].
  pose proof (detectPauses_run pre run post p Hpre Hrun Hpost Hp) as Hall.
  assert (Hlong : longPauses (detectPauses (pre ++ run ++ post))
                  = longPauses (detectPauses pre)
                    ++ qualifies LONG_PAUSE_THRESHOLD_MS p
                    ++ longPauses (detectPauses post)).
  { rewrite Hall, !longPauses_app. now rewrite longPauses_qualifies. }
  split; [|split].
  - intros Hpost'. destruct post as [|f post]; [congruence|].
    pose proof (interior_run_duration pre run post f p Hc Hp) as Hd.
    fold (runDuration run) in Hd.
    rewrite Hlong, Hall, !length_app, !qualifies_length.
    rewrite !(Qle_bool_eq _ _ _ Hd). split; lia.
  - intros ->. rewrite app_nil_r in Hc.
    pose proof (trailing_run_duration pre run p Hc Hp) as Hd.
    assert (Hd' : duration p == runDuration run - 100)
      by (rewrite Hd; unfold runDuration; ring).
    rewrite Hlong, Hall, !length_app, !qualifies_length.
    rewrite !(Qle_bool_shift _ 100 _ _ Hd').
    rewrite (detectPauses_voiced [] eq_refl). simpl. split; lia.
  - intros Vpre Vpost Hd a Hfs.
    apply (sixteen_silent_frames pre run post a Hc Vpre Hrun Vpost); trivial.
    unfold runDuration, num in Hd.
    assert (H16 : inject_Z (Z.of_nat (length run)) == 16) by lra.
    change 16 with (inject_Z 16) in H16.
    apply (proj1 (inject_Z_injective _ _)) in H16. lia.
Qed.

End CadenceFacts.


(** ** The theorems at sample inputs *)

(** C2 at a session that recognised white space only. *)
Lemma empty_transcript_no_result_witness :
  bestTranscript silentHook = ""%string
  /\ stop sqrt_milli sampleEmptyConfidences silentHook 16000
     = Ok (detach silentHook, None).
Proof.
  split; [reflexivity|].
  apply (empty_transcript_no_result sqrt_milli sampleEmptyConfidences
           silentHook 16000).
  reflexivity.
Defined.

(** C3 at fifteen silent frames that end the recording: the run lasts
    1500 ms and is counted as a pause, but not as a long pause. *)
Lemma silent_run_counted_by_position_witness :
  runDuration fifteenSilent == 1500
  /\ length (detectPauses ([frameAt 0 false 200] ++ fifteenSilent ++ []))
     = 1%nat
  /\ length (longPauses
               (detectPauses ([frameAt 0 false 200] ++ fifteenSilent ++ [])))
     = 0%nat
  /\ longPauseCount (analyzeProsody sqrt_milli trailingFifteenAudio) = 0.
Proof.
  split; [reflexivity|].
  destruct (silent_run_counted_by_position sqrt_milli
              [frameAt 0 false 200] fifteenSilent [])
    as (_ & H & _).
  - apply atCadenceb_sound. reflexivity.
  - reflexivity.
  - reflexivity.
  - discriminate.
  - reflexivity.
  - destruct (H eq_refl) as [H1 H2].
    split; [exact H1|]. split; [exact H2|]. reflexivity.
Defined.

(** C6 at two words, with and without a filler, in a fluent recording. *)
Lemma more_fillers_lower_fluency_witness :
  fillerRatio (fluencyOf plainWords risingAudio createEmptyProsodyMetrics 15000)
  < fillerRatio (fluencyOf fillerWords risingAudio createEmptyProsodyMetrics 15000)
  /\ overallFluencyScore
       (fluencyOf fillerWords risingAudio createEmptyProsodyMetrics 15000)
     < overallFluencyScore
         (fluencyOf plainWords risingAudio createEmptyProsodyMetrics 15000).
Proof.
  destruct (more_fillers_lower_fluency plainWords fillerWords risingAudio
              createEmptyProsodyMetrics 15000
              (fluencyOf plainWords risingAudio createEmptyProsodyMetrics 15000)
              (fluencyOf fillerWords risingAudio createEmptyProsodyMetrics 15000))
    as (H1 & _ & H3).
  - reflexivity.
  - reflexivity.
  - simpl. lia.
  - apply calculateFluency_Ok.
  - apply calculateFluency_Ok.
  - split; [exact H1|].
    apply H3; [apply Qle_bool_iff; reflexivity | reflexivity].
Defined.

(** C7 at the codes [no-speech] and [network]. *)
Lemma onerror_surfaces_only_real_errors_witness :
  onerror sampleOptions heardHook "no-speech" = (heardHook, [])
  /\ error (fst (onerror sampleOptions heardHook "network"))
     = Some (mkError "Speech recognition error: network")
  /\ snd (onerror sampleOptions heardHook "network")
     = [CallOnError (mkError "Speech recognition error: network")]
  /\ onend (fst (onerror sampleOptions heardHook "network")) = true.
Proof.
  split.
  - apply (proj1 (onerror_surfaces_only_real_errors sampleOptions heardHook
                    "no-speech")).
    left. reflexivity.
  - destruct (proj2 (onerror_surfaces_only_real_errors sampleOptions heardHook
                       "network"))
      as (He & Hc & _ & _ & _ & _ & _ & _ & _ & Hend);
      [discriminate | discriminate |].
    split; [exact He|]. split; [exact Hc|]. rewrite Hend. reflexivity.
Defined.

(** C9 at eleven voiced frames: two windows, two events, at 500 ms and at
    1000 ms. *)
Lemma intonation_windows_need_following_frame_witness :
  (Z.of_nat (length (intonationPatterns (analyzeProsody sqrt_milli elevenAudio)))
   <= 2)%Z
  /\ map ie_timestamp (intonationPatterns (analyzeProsody sqrt_milli elevenAudio))
     = [500; 1000]
  /\ forall e,
       In e (intonationPatterns (analyzeProsody sqrt_milli elevenAudio)) ->
       exists k fk,
         (1 <= k)%nat
         /\ nth_error elevenFrames (5 * k) = Some fk
         /\ intonationAt elevenFrames (5 * k) fk = Some e
         /\ ie_timestamp e = timestamp fk.
Proof.
  destruct (intonation_windows_need_following_frame sqrt_milli elevenAudio)
    as (H1 & _ & H3).
  split; [|split].
  - apply H1. discriminate.
  - reflexivity.
  - exact H3.
Defined.

(** C9 as stated fails for the empty recording: it has no event, and
    [floor ((0 - 1) / 5)] is [-1]. *)
Lemma empty_recording_breaks_floor_bound :
  ~ (Z.of_nat (length (intonationPatterns
                         (analyzeProsody sqrt_milli createEmptyResult)))
     <= (Z.of_nat (length (frames createEmptyResult)) - 1) / 5)%Z.
Proof.
  intros H. vm_compute in H. apply H. reflexivity.
Qed.

(** C10 at no word and no time. *)
Lemma calculateFluency_total_witness :
  exists m,
    calculateFluency [] createEmptyResult createEmptyProsodyMetrics 0 = Ok m
    /\ fillerRatio m = 0 /\ fillerCount m = 0 /\ repetitionCount m = 0
    /\ wordsPerMinute m = 0.
Proof.
  destruct (calculateFluency_total [] createEmptyResult
              createEmptyProsodyMetrics 0) as (m & Hm & Hw & Hd).
  exists m. split; [exact Hm|].
  destruct (Hw eq_refl) as (Ha & Hb & Hc).
  repeat split; trivial. apply Hd. reflexivity.
Defined.


(** * Further properties of the code *)

(** ** Pauses *)

Lemma scanPauses_Forall (P : Pause -> Prop) :
  (forall s e, PAUSE_THRESHOLD_MS <= e - s -> P (mkPause s e (e - s))) ->
  forall fs ps acc,
    Forall P acc -> Forall P (snd (scanPauses fs ps acc)).
Proof.
  intros HP. induction fs as [|f fs IH]; intros ps acc Hacc; simpl; trivial.
  destruct (isSilent f), ps as [s|]; try (apply IH; exact Hacc).
  apply IH. destruct (Qle_bool PAUSE_THRESHOLD_MS (timestamp f - s)) eqn:E; trivial.
  apply Forall_app. split; trivial. constructor; [|constructor].
  apply HP. now apply Qle_bool_iff.
Qed.

Lemma detectPauses_Forall (P : Pause -> Prop) :
  (forall s e, PAUSE_THRESHOLD_MS <= e - s -> P (mkPause s e (e - s))) ->
  forall fs, Forall P (detectPauses fs).
Proof.
  intros HP fs. unfold detectPauses.
  pose proof (scanPauses_Forall P HP fs None [] (Forall_nil P)) as H.
  destruct (scanPauses fs None []) as [ps acc]. simpl in H.
  unfold trailingPause. destruct ps as [s|]; trivial.
  destruct fs as [|f0 fs']; trivial.
  destruct (Qle_bool _ _) eqn:E; trivial.
  apply Forall_app. split; trivial. constructor; [|constructor].
  apply HP. now apply Qle_bool_iff.
Qed.

Lemma detectPauses_threshold (fs : list AudioFrame) :
  Forall (fun p => PAUSE_THRESHOLD_MS <= duration p
                   /\ duration p = p_end p - p_start p) (detectPauses fs).
Proof.
  apply detectPauses_Forall. intros s e Hd. split; [exact Hd | reflexivity].
Qed.

(** Every pause that [analyzeProsody] counts lasts at least 500 ms,
    and its duration is the difference of its end and its start. *)
Theorem detected_pauses_meet_threshold (fs : list AudioFrame) (p : Pause) :
  In p (detectPauses fs) ->
  PAUSE_THRESHOLD_MS <= duration p /\ duration p = p_end p - p_start p.
Proof.
  intros Hin. pose proof (detectPauses_threshold fs) as H.
  rewrite Forall_forall in H. now apply H.
Qed.

Lemma fold_durations (l : list Pause) :
  forall a, fold_left (fun sum p => sum + duration p) l a == a + pauseTime l.
Proof.
  induction l as [|p l IH]; intros a; simpl.
  - ring.
  - rewrite IH. ring.
Qed.


Lemma pauseTime_lower (l : list Pause) :
  Forall (fun p => PAUSE_THRESHOLD_MS <= duration p) l ->
  PAUSE_THRESHOLD_MS * num (length l) <= pauseTime l.
Proof.
  induction 1 as [|p l Hp _ IH].
  - simpl. change (num 0) with 0. lra.
  - change (length (p :: l)) with (1 + length l)%nat.
    rewrite num_add. change (num 1) with 1. simpl pauseTime. lra.
Qed.

Section PauseFacts.

Variable Math_sqrt : Q -> Q.

Lemma analyzeProsody_average (a : AudioAnalysisResult) :
  averagePauseDuration (analyzeProsody Math_sqrt a)
  = if Qltb 0 (num (length (detectPauses (frames a))))
    then fold_left (fun sum p => sum + duration p) (detectPauses (frames a)) 0
         / num (length (detectPauses (frames a)))
    else 0.
Proof.
  unfold analyzeProsody. now destruct (frames a).
Qed.


(** X1.  [averagePauseDuration] is 0 when no pause was counted and at
    least 500 ms otherwise: every counted pause lasts at least 500 ms. *)
Theorem averagePauseDuration_bounds (a : AudioAnalysisResult) :
  (pauseCount (analyzeProsody Math_sqrt a) == 0 ->
   averagePauseDuration (analyzeProsody Math_sqrt a) = 0)
  /\ (0 < pauseCount (analyzeProsody Math_sqrt a) ->
      PAUSE_THRESHOLD_MS <= averagePauseDuration (analyzeProsody Math_sqrt a)).
Proof.
  split; rewrite analyzeProsody_pauseCount, analyzeProsody_average.
  all: set (ps := detectPauses (frames a)).
  all: assert (Hall : Forall (fun p => PAUSE_THRESHOLD_MS <= duration p) ps)
    by (eapply Forall_impl; [|apply detectPauses_threshold];
        intros p [Hp _]; exact Hp).
  - destruct (Qltb 0 (num (length ps))) eqn:E; [|reflexivity].
    apply Qltb_lt in E. intros H0. rewrite H0 in E.
    exfalso. apply (Qlt_irrefl 0 E).
  - intros Hpos. apply Qltb_lt in Hpos. rewrite Hpos.
    apply Qltb_lt in Hpos. apply Qle_shift_div_l; [exact Hpos|].
    rewrite fold_durations. pose proof (pauseTime_lower ps Hall). lra.
Qed.

End PauseFacts.



(** *** Pauses lie inside the recording *)




Section SpanFacts.

Variable Math_sqrt : Q -> Q.


End SpanFacts.


(** ** Scores of the prosody metrics *)

Lemma Math_min_le_l (a b : Q) : Math_min a b <= a.
Proof. unfold Math_min. qcases; lra. Qed.

Lemma Math_min_ge (a b c : Q) : c <= a -> c <= b -> c <= Math_min a b.
Proof. unfold Math_min. intros. qcases; lra. Qed.

Lemma Qdiv_nonneg (a b : Q) : 0 <= a -> 0 < b -> 0 <= a / b.
Proof.
  intros Ha Hb. apply Qle_shift_div_l; [exact Hb | lra].
Qed.

Section RangeFacts.

Variable Math_sqrt : Q -> Q.

Lemma rhythmOf_range (segments : list Q) :
  0 <= rhythmOf Math_sqrt segments <= 100.
Proof.
  unfold rhythmOf. destruct (1 <? length segments)%nat.
  - apply clamp_range.
  - split; lra.
Qed.

Lemma prosody_ranges (a : AudioAnalysisResult) :
  0 <= rhythmConsistency (analyzeProsody Math_sqrt a) <= 100
  /\ pitchVariation (analyzeProsody Math_sqrt a) <= 100
  /\ (pmin (pitchRange a) <= pmax (pitchRange a) ->
      0 <= pitchVariation (analyzeProsody Math_sqrt a)).
Proof.
  unfold analyzeProsody. destruct (frames a) as [|f fs].
  - simpl. repeat split; intros; lra.
  - cbn [rhythmConsistency pitchVariation]. split; [apply rhythmOf_range|].
    split; [apply Math_min_le_l|].
    intros Hr. apply Math_min_ge; [lra|].
    destruct (Qltb 0 (averagePitch a)) eqn:E; [|lra].
    apply Qltb_lt in E.
    apply Qmult_le_0_compat; [|lra].
    apply Qdiv_nonneg; [lra | exact E].
Qed.

(** X3.  Whatever [Math.sqrt] returns, [rhythmConsistency] lies in
    [0, 100] and [pitchVariation] is at most 100; [pitchVariation] is not
    negative when the pitch range has [min <= max]. *)
Theorem prosody_scores_in_range (a : AudioAnalysisResult) :
  0 <= rhythmConsistency (analyzeProsody Math_sqrt a) <= 100
  /\ pitchVariation (analyzeProsody Math_sqrt a) <= 100
  /\ (pmin (pitchRange a) <= pmax (pitchRange a) ->
      0 <= pitchVariation (analyzeProsody Math_sqrt a)).
Proof. apply prosody_ranges. Qed.

End RangeFacts.

(** ** Stress events *)

Lemma scanStress_step (avgRms : Q) (a b c : AudioFrame)
    (rest : list AudioFrame) :
  scanStress avgRms (a :: b :: c :: rest)
  = (if negb (isSilent b) && Qltb (rms a) (rms b)
        && Qltb (rms c) (rms b) && Qltb (avgRms * (3 # 2)) (rms b)
     then [mkStress (timestamp b)
             (if Qeq_bool avgRms 0 then 100
              else Math_min 100 (rms b / avgRms * 50))]
     else [])
    ++ scanStress avgRms (b :: c :: rest).
Proof. reflexivity. Qed.

Lemma scanStress_skip (avgRms : Q) (b c : AudioFrame) (rest : list AudioFrame) :
  Qltb (rms b) (rms c) = false ->
  scanStress avgRms (b :: c :: rest) = scanStress avgRms (c :: rest).
Proof.
  intros H. destruct rest as [|d rest]; [reflexivity|].
  rewrite scanStress_step, H.
  now rewrite andb_false_r.
Qed.

Lemma scanStress_count (avgRms : Q) :
  forall n fs,
    (length fs <= n)%nat ->
    (2 * length (scanStress avgRms fs) + 1 <= Nat.max 1 (length fs))%nat.
Proof.
  induction n as [n IH] using lt_wf_ind. intros fs Hn.
  destruct fs as [|a [|b [|c rest]]]; try (simpl; lia).
  rewrite scanStress_step.
  destruct (negb (isSilent b) && Qltb (rms a) (rms b)
            && Qltb (rms c) (rms b) && Qltb (avgRms * (3 # 2)) (rms b)) eqn:E.
  - apply andb_true_iff in E. destruct E as [E _].
    apply andb_true_iff in E. destruct E as [_ E].
    apply Qltb_lt in E.
    assert (Hbc : Qltb (rms b) (rms c) = false).
    { apply Qltb_ge. now apply Qlt_le_weak. }
    rewrite (scanStress_skip avgRms b c rest Hbc).
    pose proof (IH (length (c :: rest)) ltac:(simpl in *; lia) (c :: rest)
                  (Nat.le_refl _)) as H.
    cbn [app length] in *. lia.
  - pose proof (IH (length (b :: c :: rest)) ltac:(simpl in *; lia)
                  (b :: c :: rest) (Nat.le_refl _)) as H.
    cbn [app length] in *. lia.
Qed.

Lemma scanStress_silent (avgRms : Q) (fs : list AudioFrame) :
  forallb isSilent fs = true -> scanStress avgRms fs = [].
Proof.
  induction fs as [|a fs IH]; [reflexivity|]. intros H.
  simpl in H. apply andb_true_iff in H. destruct H as [_ H].
  destruct fs as [|b [|c rest]]; try reflexivity.
  rewrite scanStress_step, (IH H).
  simpl in H. apply andb_true_iff in H. destruct H as [Hb _].
  now rewrite Hb.
Qed.

Section StressFacts.

Variable Math_sqrt : Q -> Q.

Lemma analyzeProsody_stress (a : AudioAnalysisResult) :
  stressEventCount (analyzeProsody Math_sqrt a)
  = num (length (scanStress
                   (fold_left (fun sum f => sum + rms f) (frames a) 0
                    / num (length (frames a)))
                   (frames a))).
Proof.
  unfold analyzeProsody. now destruct (frames a).
Qed.

(** X4.  A stress event is a strict local maximum of the energy, so no two
    neighbouring frames are both stress events and the first and the last
    frame never are: twice [stressEventCount] is at most the number of
    frames minus one. *)
Theorem stress_events_never_adjacent (a : AudioAnalysisResult) :
  2 * stressEventCount (analyzeProsody Math_sqrt a)
  <= num (length (frames a) - 1).
Proof.
  rewrite analyzeProsody_stress.
  set (avg := _ / _).
  pose proof (scanStress_count avg (length (frames a)) (frames a)
                (Nat.le_refl _)) as H.
  set (k := length (scanStress avg (frames a))) in *.
  assert (Hk : (2 * k <= length (frames a) - 1)%nat) by lia.
  apply num_le in Hk.
  replace (2 * k)%nat with (k + k)%nat in Hk by lia.
  rewrite num_add in Hk. lra.
Qed.

End StressFacts.


(** ** Intonation events *)

Lemma intonationAt_classified fs i fi e :
  intonationAt fs i fi = Some e ->
  exists r, ie_type e = classify r /\ magnitude e = Qabs r.
Proof.
  unfold intonationAt. destruct (filter _ _) as [|w0 w]; [discriminate|].
  destruct (_ <? _)%nat; [discriminate|]. intros [= <-]. simpl.
  eexists. split; reflexivity.
Qed.

Lemma classify_level (r : Q) : classify r = level <-> Qabs r <= 10.
Proof.
  rewrite Qabs_Qle_condition. unfold classify.
  destruct (Qltb 10 r) eqn:E1; [apply Qltb_lt in E1 | apply Qltb_ge in E1].
  - split; [discriminate | intros [_ H]; lra].
  - destruct (Qltb r (-10)) eqn:E2;
      [apply Qltb_lt in E2 | apply Qltb_ge in E2].
    + split; [discriminate | intros [H _]; lra].
    + split; [intros _; split; lra | reflexivity].
Qed.

Section IntonationTypeFacts.

Variable Math_sqrt : Q -> Q.

(** X5.  The type and the magnitude of an intonation event agree: an
    event is [level] exactly when its magnitude is at most 10, so every
    [rising] or [falling] event has a magnitude above 10. *)
Theorem intonation_level_iff_small_magnitude (a : AudioAnalysisResult)
    (e : IntonationEvent) :
  In e (intonationPatterns (analyzeProsody Math_sqrt a)) ->
  (ie_type e = level <-> magnitude e <= 10).
Proof.
  rewrite analyzeProsody_intonation. intros Hin.
  destruct (detectIntonation_events _ e Hin) as (k & fk & _ & _ & H).
  destruct (intonationAt_classified _ _ _ _ H) as (r & -> & ->).
  apply classify_level.
Qed.

End IntonationTypeFacts.

(** ** Recordings that are all silent or all voiced *)

Lemma filter_voiced_silent (fs : list AudioFrame) :
  forallb isSilent fs = true ->
  filter (fun f => negb (isSilent f)) fs = [].
Proof.
  induction fs as [|f fs IH]; [reflexivity|]. simpl. intros H.
  apply andb_true_iff in H. destruct H as [Hf H]. rewrite Hf. simpl. auto.
Qed.

Lemma forallb_slice {A : Type} (p : A -> bool) (l : list A) (s e : nat) :
  forallb p l = true -> forallb p (slice l s e) = true.
Proof.
  intros H. rewrite forallb_forall in *. intros x Hin. apply H.
  unfold slice in Hin.
  assert (Hf : In x (firstn e l)).
  { rewrite <- (firstn_skipn s (firstn e l)). apply in_or_app. now right. }
  rewrite <- (firstn_skipn e l). apply in_or_app. now left.
Qed.

Lemma detectIntonation_silent (fs : list AudioFrame) :
  forallb isSilent fs = true -> detectIntonation fs = [].
Proof.
  intros H. destruct (detectIntonation fs) as [|e l] eqn:E; [reflexivity|].
  destruct (detectIntonation_events fs e) as (k & fk & _ & _ & Hat).
  { rewrite E. now left. }
  unfold intonationAt in Hat.
  rewrite (filter_voiced_silent _ (forallb_slice _ fs _ _ H)) in Hat.
  discriminate.
Qed.

Lemma scanSegments_silent (fs : list AudioFrame) :
  forallb isSilent fs = true ->
  forall acc, scanSegments fs None acc = (None, acc).
Proof.
  induction fs as [|f fs IH]; intros H acc; simpl in *; [reflexivity|].
  apply andb_true_iff in H. destruct H as [Hf H]. rewrite Hf. simpl. auto.
Qed.

Lemma scanSegments_voiced (fs : list AudioFrame) :
  forallb voiced fs = true ->
  forall s acc, scanSegments fs (Some s) acc = (Some s, acc).
Proof.
  unfold voiced.
  induction fs as [|f fs IH]; intros H s acc; simpl in *; [reflexivity|].
  apply andb_true_iff in H. destruct H as [Hf H]. rewrite Hf. auto.
Qed.

Section UniformFacts.

Variable Math_sqrt : Q -> Q.

(** X6.  A recording whose frames are all silent has no stress event and
    no intonation event, the neutral rhythm score 50 and the speaking rate
    [slow]; it has at most one pause, the whole recording. *)
Theorem all_silent_recording (a : AudioAnalysisResult) :
  frames a <> [] ->
  forallb isSilent (frames a) = true ->
  stressEventCount (analyzeProsody Math_sqrt a) = 0
  /\ intonationPatterns (analyzeProsody Math_sqrt a) = []
  /\ rhythmConsistency (analyzeProsody Math_sqrt a) = 50
  /\ speakingRate (analyzeProsody Math_sqrt a) = slow
  /\ pauseCount (analyzeProsody Math_sqrt a) <= 1.
Proof.
  intros Hne Hs.
  split; [rewrite analyzeProsody_stress; now rewrite scanStress_silent|].
  split; [rewrite analyzeProsody_intonation; now apply detectIntonation_silent|].
  rewrite analyzeProsody_pauseCount.
  unfold analyzeProsody. destruct (frames a) as [|f0 rest] eqn:Hfs; [congruence|].
  cbn [rhythmConsistency speakingRate].
  split; [|split].
  - unfold detectSegments. now rewrite (scanSegments_silent _ Hs).
  - unfold rateOf. rewrite (filter_voiced_silent _ Hs).
    assert (Hz : (if Qltb 0 (totalDuration a)
                  then num (length (@nil AudioFrame)) * 100 / totalDuration a
                  else 0) == 0).
    { destruct (Qltb 0 (totalDuration a)); [|reflexivity].
      unfold Qdiv. change (num (length (@nil AudioFrame))) with 0. ring. }
    assert (Hlt : Qltb (if Qltb 0 (totalDuration a)
                        then num (length (@nil AudioFrame)) * 100 / totalDuration a
                        else 0) (1 # 2) = true).
    { apply Qltb_lt. rewrite Hz. reflexivity. }
    now rewrite Hlt.
  - unfold detectPauses. simpl in Hs.
    apply andb_true_iff in Hs. destruct Hs as [H0 Hs].
    cbn [scanPauses]. rewrite H0, (scanPauses_silent rest Hs).
    unfold trailingPause. destruct (Qle_bool _ _); apply Qle_bool_iff; reflexivity.
Qed.

(** X7.  A recording without a silent frame has no pause, no long pause
    and an average pause duration of 0, and, being one segment of speech,
    the neutral rhythm score 50. *)
Theorem all_voiced_recording (a : AudioAnalysisResult) :
  forallb voiced (frames a) = true ->
  pauseCount (analyzeProsody Math_sqrt a) = 0
  /\ longPauseCount (analyzeProsody Math_sqrt a) = 0
  /\ averagePauseDuration (analyzeProsody Math_sqrt a) = 0
  /\ rhythmConsistency (analyzeProsody Math_sqrt a) = 50.
Proof.
  intros Hv.
  rewrite analyzeProsody_pauseCount, analyzeProsody_longPauseCount,
    (analyzeProsody_average Math_sqrt), (detectPauses_voiced _ Hv).
  repeat split.
  unfold analyzeProsody. destruct (frames a) as [|f0 rest]; [reflexivity|].
  cbn [rhythmConsistency]. unfold detectSegments.
  simpl in Hv. apply andb_true_iff in Hv. destruct Hv as [H0 Hv].
  unfold voiced in H0. cbn [scanSegments]. rewrite H0.
  now rewrite (scanSegments_voiced rest Hv).
Qed.

End UniformFacts.


(** ** Fluency metrics *)

Lemma Math_round_nonneg (x : Q) : 0 <= x -> (0 <= Math_round x)%Z.
Proof.
  intros H. unfold Math_round.
  change 0%Z with (Qfloor 0). apply Qfloor_resp_le. lra.
Qed.


Lemma wpmOf_nonneg (n d : Q) : 0 <= n -> 0 <= wpmOf n d.
Proof.
  intros Hn. unfold wpmOf.
  destruct (Qltb 0 (d / 60000)) eqn:E; [|lra].
  apply Qltb_lt in E.
  change 0 with (inject_Z 0). rewrite <- Zle_Qle.
  apply Math_round_nonneg. now apply Qdiv_nonneg.
Qed.

Lemma num_nonneg (n : nat) : 0 <= num n.
Proof. change 0 with (num 0). apply num_le. lia. Qed.

Lemma ratioOf_le_1 (f n : Q) : f <= n -> ratioOf f n <= 1.
Proof.
  intros H. unfold ratioOf. destruct (Qltb 0 n) eqn:E; [|lra].
  apply Qltb_lt in E. apply Qle_shift_div_r; [exact E | lra].
Qed.

(** X8.  Every score [calculateFluency] returns is in its range:
    [hesitationScore] and [overallFluencyScore] in [0, 100], [fillerRatio]
    in [0, 1], [fillerCount] at most the number of words and
    [wordsPerMinute] not negative. *)
Theorem fluency_scores_in_range (words : list WordConfidence)
    (a : AudioAnalysisResult) (p : ProsodyMetrics) (d : Q)
    (m : FluencyMetrics) :
  calculateFluency words a p d = Ok m ->
  0 <= hesitationScore m <= 100
  /\ 0 <= overallFluencyScore m <= 100
  /\ 0 <= fillerRatio m <= 1
  /\ 0 <= fillerCount m <= num (length words)
  /\ 0 <= wordsPerMinute m.
Proof.
  rewrite calculateFluency_Ok. intros [= <-]. unfold fluencyOf.
  cbn [hesitationScore overallFluencyScore fillerRatio fillerCount
       wordsPerMinute].
  assert (Hf : 0 <= fillersOf words <= num (length words)).
  { unfold fillersOf. split; [apply num_nonneg|].
    apply num_le, filter_length_le. }
  split; [apply hesitationOf_range|].
  split; [unfold scoreOf; apply clamp_range|].
  split; [split; [apply ratioOf_nonneg | apply ratioOf_le_1]; apply Hf|].
  split; [exact Hf|].
  apply wpmOf_nonneg, num_nonneg.
Qed.


(** X10.  More pauses never help: with the same words, audio result and
    duration, a prosody with at least as many pauses and long pauses gives
    a hesitation score and a fluency score that are not higher. *)
Theorem more_pauses_lower_scores (words : list WordConfidence)
    (a : AudioAnalysisResult) (p1 p2 : ProsodyMetrics) (d : Q)
    (m1 m2 : FluencyMetrics) :
  pauseCount p1 <= pauseCount p2 ->
  longPauseCount p1 <= longPauseCount p2 ->
  calculateFluency words a p1 d = Ok m1 ->
  calculateFluency words a p2 d = Ok m2 ->
  hesitationScore m2 <= hesitationScore m1
  /\ overallFluencyScore m2 <= overallFluencyScore m1.
Proof.
  intros Hp Hl. rewrite !calculateFluency_Ok. intros [= <-] [= <-].
  unfold fluencyOf. cbn [hesitationScore overallFluencyScore].
  assert (Hh : hesitationOf (pauseCount p2) (fillersOf words)
                 (repeatsOf words) (longPauseCount p2)
               <= hesitationOf (pauseCount p1) (fillersOf words)
                    (repeatsOf words) (longPauseCount p1)).
  { unfold hesitationOf. apply clamp_mono. lra. }
  split; [exact Hh|].
  unfold scoreOf.
  destruct (Qltb (wpmOf (num (length words)) d) 100),
           (Qltb 200 (wpmOf (num (length words)) d)),
           (Qltb (1 - silenceRatio a) (4 # 10));
    apply clamp_mono; rewrite !half; lra.
Qed.


(** ** The fluency assessment *)

Lemma assessment_level (m : FluencyMetrics) :
  a_level (getFluencyAssessment m)
  = if Qle_bool 80 (overallFluencyScore m) then excellent
    else if Qle_bool 60 (overallFluencyScore m) then good
    else if Qle_bool 40 (overallFluencyScore m) then fair
    else needs_improvement.
Proof.
  unfold getFluencyAssessment.
  destruct (Qle_bool 80 _); [reflexivity|].
  destruct (Qle_bool 60 _); [reflexivity|].
  destruct (Qle_bool 40 _); reflexivity.
Qed.

(** X11.  The level of the assessment follows the score: a higher
    [overallFluencyScore] never gives a lower level, whatever the other
    metrics are. *)
Theorem assessment_level_monotone (m1 m2 : FluencyMetrics) :
  overallFluencyScore m1 <= overallFluencyScore m2 ->
  (levelRank (a_level (getFluencyAssessment m1))
   <= levelRank (a_level (getFluencyAssessment m2)))%nat.
Proof.
  intros H. rewrite !assessment_level.
  qcases; simpl; try lia; lra.
Qed.

Lemma clamp_pos (x : Q) :
  0 < Math_max 0 (Math_min 100 x) -> Math_max 0 (Math_min 100 x) <= x.
Proof.
  unfold Math_max, Math_min. qcases; intros H; lra.
Qed.

(** The score is the clamped mean of the hesitation score and of 100
    minus the penalties, two of which are kept here. *)
Lemma scoreOf_raw (wpm fr lpc r h : Q) :
  exists raw,
    scoreOf wpm fr lpc r h = Math_max 0 (Math_min 100 raw)
    /\ 2 * raw <= 100 - fr * 30 - lpc * 5 + h.
Proof.
  unfold scoreOf.
  destruct (Qltb wpm 100) eqn:E1;
    [apply Qltb_lt in E1
    |destruct (Qltb 200 wpm) eqn:E2; [apply Qltb_lt in E2|]];
    (destruct (Qltb r (4 # 10)) eqn:E3; [apply Qltb_lt in E3|]);
    eexists; (split; [reflexivity | rewrite half; lra]).
Qed.

(** What a score of at least 60 says about the penalties. *)
Lemma penalty_budget (words : list WordConfidence)
    (a : AudioAnalysisResult) (p : ProsodyMetrics) (d : Q) :
  0 <= longPauseCount p ->
  60 <= overallFluencyScore (fluencyOf words a p d) ->
  5 * pauseCount p + 13 * longPauseCount p + 3 * fillersOf words
  + 4 * repeatsOf words + 30 * ratioOf (fillersOf words) (num (length words))
  <= 200 - 2 * overallFluencyScore (fluencyOf words a p d).
Proof.
  intros Hl. unfold fluencyOf. cbn [overallFluencyScore].
  assert (Hf : 0 <= fillersOf words) by apply num_nonneg.
  pose proof (ratioOf_nonneg _ (num (length words)) Hf) as Hr.
  set (fr := ratioOf (fillersOf words) (num (length words))) in *.
  set (h := hesitationOf (pauseCount p) (fillersOf words) (repeatsOf words)
              (longPauseCount p)).
  destruct (scoreOf_raw (wpmOf (num (length words)) d) fr (longPauseCount p)
              (1 - silenceRatio a) h) as (raw & -> & Hraw).
  intros Hs.
  assert (Hle : Math_max 0 (Math_min 100 raw) <= raw) by (apply clamp_pos; lra).
  pose proof (hesitationOf_range (pauseCount p) (fillersOf words)
                (repeatsOf words) (longPauseCount p)) as [Hh0 _].
  fold h in Hh0.
  destruct (Qlt_le_dec 0 h) as [Hpos|Hzero]; [|lra].
  pose proof (clamp_pos _ Hpos) as HX. fold (hesitationOf (pauseCount p)
    (fillersOf words) (repeatsOf words) (longPauseCount p)) in HX. fold h in HX.
  lra.
Qed.

Lemma num_le_inv (n : nat) (k : nat) : num n < num (S k) -> (n <= k)%nat.
Proof.
  intros H. destruct (le_lt_dec n k) as [|Hlt]; trivial.
  apply num_le in Hlt. exfalso. apply (Qlt_not_le _ _ H Hlt).
Qed.

Section AssessmentFacts.

Variable Math_sqrt : Q -> Q.

(** X12.  From the frames to the score: a fluency score of at least 60
    bounds the counts that went into it.  For a recording analysed by
    [analyzeProsody],
    [5 pauseCount + 13 longPauseCount + 3 fillerCount + 4 repetitionCount
    <= 200 - 2 overallFluencyScore]. *)
Theorem score_bounds_penalties (words : list WordConfidence)
    (a : AudioAnalysisResult) (d : Q) (m : FluencyMetrics) :
  calculateFluency words a (analyzeProsody Math_sqrt a) d = Ok m ->
  60 <= overallFluencyScore m ->
  5 * f_pauseCount m + 13 * f_longPauseCount m + 3 * fillerCount m
  + 4 * repetitionCount m
  <= 200 - 2 * overallFluencyScore m.
Proof.
  rewrite calculateFluency_Ok. intros [= <-] Hs.
  assert (Hl : 0 <= longPauseCount (analyzeProsody Math_sqrt a))
    by (rewrite analyzeProsody_longPauseCount; apply num_nonneg).
  pose proof (penalty_budget words a (analyzeProsody Math_sqrt a) d Hl Hs)
    as Hb.
  assert (Hf : 0 <= fillersOf words) by apply num_nonneg.
  pose proof (ratioOf_nonneg _ (num (length words)) Hf) as Hr.
  cbn [f_pauseCount f_longPauseCount fillerCount repetitionCount fluencyOf].
  lra.
Qed.

(** X13.  From the frames to the assessment: when the fluency of a
    recording analysed by [analyzeProsody] is assessed as [excellent], the
    recording has at most 2 long pauses and at most 8 pauses. *)
Theorem excellent_means_few_pauses (words : list WordConfidence)
    (a : AudioAnalysisResult) (d : Q) (m : FluencyMetrics) :
  calculateFluency words a (analyzeProsody Math_sqrt a) d = Ok m ->
  a_level (getFluencyAssessment m) = excellent ->
  f_longPauseCount m <= 2 /\ f_pauseCount m <= 8.
Proof.
  rewrite calculateFluency_Ok. intros [= <-]. rewrite assessment_level.
  destruct (Qle_bool 80 _) eqn:E;
    [|destruct (Qle_bool 60 _); [|destruct (Qle_bool 40 _)]; discriminate].
  intros _. apply Qle_bool_iff in E.
  cbn [f_longPauseCount f_pauseCount fluencyOf].
  rewrite analyzeProsody_pauseCount, analyzeProsody_longPauseCount.
  set (ps := detectPauses (frames a)).
  pose proof (num_nonneg (length (longPauses ps))) as Hl.
  assert (Hl' : 0 <= longPauseCount (analyzeProsody Math_sqrt a))
    by now rewrite analyzeProsody_longPauseCount.
  assert (H60 : 60 <= overallFluencyScore
                        (fluencyOf words a (analyzeProsody Math_sqrt a) d))
    by lra.
  pose proof (penalty_budget words a _ d Hl' H60) as Hb.
  rewrite analyzeProsody_pauseCount, analyzeProsody_longPauseCount in Hb.
  fold ps in Hb.
  pose proof (num_le _ _ (filter_length_le
                 (fun p => Qle_bool LONG_PAUSE_THRESHOLD_MS (duration p)) ps))
    as Hle.
  fold (longPauses ps) in Hle.
  pose proof (num_nonneg (length (filter isFiller words))) as Hf.
  fold (fillersOf words) in Hf.
  pose proof (num_nonneg (length (filter isRepeat words))) as Hrp.
  fold (repeatsOf words) in Hrp.
  pose proof (ratioOf_nonneg _ (num (length words)) Hf) as Hr.
  assert (Hk : (length (longPauses ps) <= 2)%nat).
  { apply num_le_inv. change (num 3) with 3. lra. }
  assert (Hp : (length ps <= 8)%nat).
  { apply num_le_inv. change (num 9) with 9. lra. }
  apply num_le in Hk, Hp. change (num 2) with 2 in Hk.
  change (num 8) with 8 in Hp. split; assumption.
Qed.

End AssessmentFacts.


(** ** Transcripts *)

Lemma trimStart_blank (s : string) :
  Text.trimStart s = ""%string <-> blank s = true.
Proof.
  induction s as [|c s IH]; simpl; [tauto|].
  destruct (Text.isSpace c); simpl; [exact IH|].
  split; discriminate.
Qed.

Lemma trimEnd_blank (s : string) :
  Text.trimEnd s = ""%string <-> blank s = true.
Proof.
  induction s as [|c s IH]; simpl; [tauto|].
  destruct (Text.isSpace c); simpl.
  - destruct (Text.trimEnd s =? "")%string eqn:E.
    + apply String.eqb_eq in E. split; [intros _; now apply IH | reflexivity].
    + apply String.eqb_neq in E. split; [discriminate|].
      intros H. apply IH in H. contradiction.
  - split; discriminate.
Qed.

Lemma blank_trimStart (s : string) : blank (Text.trimStart s) = blank s.
Proof.
  induction s as [|c s IH]; simpl; [reflexivity|].
  destruct (Text.isSpace c) eqn:E; simpl; [exact IH|].
  now rewrite E.
Qed.

Lemma trim_blank (s : string) : Text.trim s = ""%string <-> blank s = true.
Proof.
  unfold Text.trim. now rewrite trimEnd_blank, blank_trimStart.
Qed.

Lemma blank_app (a b : string) : blank (a ++ b) = blank a && blank b.
Proof.
  induction a as [|c a IH]; simpl; [reflexivity|].
  now rewrite IH, andb_assoc.
Qed.

Lemma bestTranscript_empty (h : Hook) :
  bestTranscript h = ""%string
  <-> blank (finalTranscriptRef h) = true /\ blank (interimTranscript h) = true.
Proof.
  unfold bestTranscript, Text.or_else. rewrite <- !trim_blank.
  destruct (Text.trim (finalTranscriptRef h) =? "")%string eqn:E.
  - apply String.eqb_eq in E. tauto.
  - apply String.eqb_neq in E. tauto.
Qed.

Section StopFacts.

Variable Math_sqrt : Q -> Q.
Variable createEmptyConfidences : string -> list WordConfidence.

(** What [stop] returns, in both cases. *)
Lemma stop_value (h : Hook) (now : Q) :
  stop Math_sqrt createEmptyConfidences h now
  = Ok (detach h,
        if (bestTranscript h =? "")%string then None
        else Some (resultOf Math_sqrt createEmptyConfidences h now)).
Proof.
  unfold stop, resultOf.
  destruct (bestTranscript h =? "")%string; [reflexivity|].
  rewrite calculateFluency_Ok. cbn [bind].
  set (ws := match wordTrackerRef h with
             | Some tracker => getWordConfidences tracker (bestTranscript h)
             | None => createEmptyConfidences (bestTranscript h)
             end).
  assert (Havg : (if (0 <? length ws)%nat
                  then quot (fold_left (fun sum w => sum + confidence w) ws 0)
                            (num (length ws))
                  else Ok 0) = Ok (averageConfidence ws)).
  { destruct ws as [|w ws']; [reflexivity|].
    change (0 <? length (w :: ws'))%nat with true. cbv iota.
    rewrite quot_Ok.
    - unfold averageConfidence, sumQ. now rewrite fold_confidence.
    - intros E. pose proof (num_pos (length (w :: ws'))) as Hpos.
      rewrite E in Hpos. apply (Qlt_irrefl 0), Hpos. simpl. lia. }
  rewrite Havg. reflexivity.
Qed.

(** X14.  [stop] returns [null] exactly when the accumulated final text
    and the interim text both consist of white space only; in every other
    case it returns a result, whose raw transcript is not empty. *)
Theorem stop_null_iff_blank (h : Hook) (now : Q) :
  (stop Math_sqrt createEmptyConfidences h now = Ok (detach h, None)
   <-> blank (finalTranscriptRef h) = true
       /\ blank (interimTranscript h) = true)
  /\ (blank (finalTranscriptRef h) && blank (interimTranscript h) = false ->
      exists r,
        stop Math_sqrt createEmptyConfidences h now = Ok (detach h, Some r)
        /\ rawTranscript r <> ""%string).
Proof.
  rewrite stop_value, <- bestTranscript_empty. split.
  - destruct (bestTranscript h =? "")%string eqn:E.
    + apply String.eqb_eq in E. tauto.
    + apply String.eqb_neq in E. split; [discriminate | contradiction].
  - intros Hb.
    destruct (bestTranscript h =? "")%string eqn:E.
    + apply String.eqb_eq, bestTranscript_empty in E.
      destruct E as [E1 E2]. rewrite E1, E2 in Hb. discriminate.
    + eexists. split; [reflexivity|]. simpl. now apply String.eqb_neq.
Qed.

End StopFacts.


(** ** The clarity score *)

Lemma fold_Qplus_bounds (l : list Q) :
  Forall (fun q => 0 <= q <= 100) l ->
  forall a, a <= fold_left Qplus l a /\ fold_left Qplus l a <= a + 100 * num (length l).
Proof.
  induction 1 as [|q l [Hq0 Hq1] _ IH]; intros a.
  - simpl. change (num 0) with 0. split; lra.
  - change (length (q :: l)) with (1 + length l)%nat.
    rewrite num_add. change (num 1) with 1. simpl fold_left.
    destruct (IH (a + q)) as [H1 H2]. split; lra.
Qed.

Lemma averageConfidence_range (ws : list WordConfidence) :
  Forall (fun w => 0 <= confidence w <= 100) ws ->
  0 <= averageConfidence ws <= 100.
Proof.
  intros H. unfold averageConfidence. destruct ws as [|w ws']; [split; lra|].
  set (l := w :: ws') in *.
  assert (Hpos : 0 < num (length l)) by (apply num_pos; simpl; lia).
  assert (Hl : Forall (fun q => 0 <= q <= 100) (map confidence l)).
  { apply Forall_map. exact H. }
  destruct (fold_Qplus_bounds _ Hl 0) as [H0 H1].
  rewrite length_map in H1. unfold sumQ. split.
  - apply Qle_shift_div_l; [exact Hpos | lra].
  - apply Qle_shift_div_r; [exact Hpos | lra].
Qed.

Section ClarityFacts.

Variable Math_sqrt : Q -> Q.
Variable createEmptyConfidences : string -> list WordConfidence.

(** X15.  When the word confidences of a result of [stop] are in
    [0, 100] and the pitch range of its audio analysis has [min <= max],
    its [overallClarityScore] is in [0, 100]. *)
Theorem clarity_score_in_range (h h' : Hook) (now : Q)
    (r : SpeechAnalysisResult) :
  stop Math_sqrt createEmptyConfidences h now = Ok (h', Some r) ->
  Forall (fun w => 0 <= confidence w <= 100) (wordConfidences r) ->
  pmin (pitchRange (audioAnalysis r)) <= pmax (pitchRange (audioAnalysis r)) ->
  0 <= overallClarityScore r <= 100.
Proof.
  rewrite stop_value. intros [= _ Hr].
  destruct (bestTranscript h =? "")%string; [discriminate|].
  injection Hr as <-. unfold resultOf.
  cbn [wordConfidences audioAnalysis overallClarityScore].
  set (audio := match audioExtractorRef h with
                | Some extractor => extractor_stop extractor
                | None => createEmptyResult
                end).
  set (ws := match wordTrackerRef h with
             | Some tracker => getWordConfidences tracker (bestTranscript h)
             | None => createEmptyConfidences (bestTranscript h)
             end).
  intros Hws Hpitch.
  pose proof (averageConfidence_range ws Hws) as Havg.
  destruct (prosody_ranges Math_sqrt audio) as (Hrc & Hpv1 & Hpv0).
  specialize (Hpv0 Hpitch).
  assert (Hfl : 0 <= overallFluencyScore
                  (fluencyOf ws audio (analyzeProsody Math_sqrt audio)
                     (now - startTimeRef h)) <= 100).
  { unfold fluencyOf, scoreOf. cbn [overallFluencyScore]. apply clamp_range. }
  set (x := _ + _ + _ + _).
  assert (Hx : 0 <= x <= 100) by (unfold x; split; lra).
  split.
  - change 0 with (inject_Z 0). rewrite <- Zle_Qle.
    apply Math_round_nonneg. apply Hx.
  - change 100 with (inject_Z 100). rewrite <- Zle_Qle.
    unfold Math_round. change 100%Z with (Qfloor (100 + (1 # 2))).
    apply Qfloor_resp_le. lra.
Qed.

End ClarityFacts.


(** ** The cleaned transcript *)

Lemma collapseSpaces_single (s : string) :
  forall inRun, singleSpaced inRun (Text.collapseSpaces inRun s) = true.
Proof.
  induction s as [|c s IH]; intros inRun; simpl; [reflexivity|].
  destruct (Text.isSpace c) eqn:E.
  - destruct inRun; [apply IH|]. simpl. now rewrite IH.
  - simpl. rewrite E. apply IH.
Qed.

Lemma trimStart_single (s : string) :
  forall p, singleSpaced p s = true ->
            singleSpaced false (Text.trimStart s) = true.
Proof.
  induction s as [|c s IH]; intros p H; simpl in *; [reflexivity|].
  destruct (Text.isSpace c) eqn:E.
  - apply andb_true_iff in H. destruct H as [_ H]. now apply (IH true).
  - simpl. now rewrite E.
Qed.

Lemma trimStart_first (s : string) : firstIsSpace (Text.trimStart s) = false.
Proof.
  induction s as [|c s IH]; simpl; [reflexivity|].
  destruct (Text.isSpace c) eqn:E; [exact IH | exact E].
Qed.

Lemma trimEnd_single (s : string) :
  forall p, singleSpaced p s = true ->
            singleSpaced p (Text.trimEnd s) = true.
Proof.
  induction s as [|c s IH]; intros p H; simpl in *; [reflexivity|].
  destruct (Text.isSpace c) eqn:E; simpl.
  - destruct (Text.trimEnd s =? "")%string; [reflexivity|].
    simpl. rewrite E.
    apply andb_true_iff in H. destruct H as [H1 H2].
    now rewrite H1, (IH true H2).
  - rewrite E. now apply IH.
Qed.

Lemma trimEnd_first (s : string) :
  firstIsSpace s = false -> firstIsSpace (Text.trimEnd s) = false.
Proof.
  destruct s as [|c s]; simpl; [reflexivity|]. intros E. now rewrite E.
Qed.

Lemma trimEnd_last (s : string) : lastIsSpace (Text.trimEnd s) = false.
Proof.
  induction s as [|c s IH]; simpl; [reflexivity|].
  destruct (Text.isSpace c && (Text.trimEnd s =? "")%string) eqn:E;
    [reflexivity|].
  destruct (Text.trimEnd s) as [|c' s'] eqn:Es.
  - simpl in *. now rewrite andb_true_r in E.
  - exact IH.
Qed.

Lemma join_nil_filter (ws : list WordConfidence) :
  forallb (fun w => isFiller w || isRepeat w) ws = true ->
  filter (fun w => negb (isFiller w) && negb (isRepeat w)) ws = [].
Proof.
  induction ws as [|w ws IH]; simpl; [reflexivity|]. intros H.
  apply andb_true_iff in H. destruct H as [Hw H].
  rewrite <- negb_orb, Hw. simpl. auto.
Qed.

Lemma cleanOf_flagged (ws : list WordConfidence) :
  forallb (fun w => isFiller w || isRepeat w) ws = true ->
  cleanOf ws = ""%string.
Proof.
  intros H. unfold cleanOf. now rewrite (join_nil_filter ws H).
Qed.

(** X16.  The cleaned transcript is tidy whatever the words contain: it
    neither starts nor ends with white space, its only white space
    characters are single spaces, and it is empty when every word is a
    filler or a repeat. *)
Theorem cleaned_transcript_is_tidy (ws : list WordConfidence) :
  firstIsSpace (cleanOf ws) = false
  /\ lastIsSpace (cleanOf ws) = false
  /\ singleSpaced false (cleanOf ws) = true
  /\ (forallb (fun w => isFiller w || isRepeat w) ws = true ->
      cleanOf ws = ""%string).
Proof.
  unfold cleanOf, Text.trim.
  set (t := Text.collapseSpaces false _).
  split; [apply trimEnd_first, trimStart_first|].
  split; [apply trimEnd_last|].
  split.
  - apply trimEnd_single. apply (trimStart_single t false).
    apply collapseSpaces_single.
  - intros H. fold (Text.trim t). apply (cleanOf_flagged ws H).
Qed.

Section PanelFacts.

Variable Math_sqrt : Q -> Q.
Variable createEmptyConfidences : string -> list WordConfidence.

(** X17.  What the feedback component shows for a result of [stop].  The
    raw panel and the line of the compact layout show the raw transcript,
    and the polished panel shows the cleaned transcript, or the raw one
    when every word is a filler or a repeat: none of the three shows the
    placeholder "No speech detected".  The Clarity tab shows the words of
    the result, and the placeholder exactly when the result has no word
    confidences. *)
Theorem feedback_panels_of_stop_result (h h' : Hook) (now : Q)
    (r : SpeechAnalysisResult) :
  stop Math_sqrt createEmptyConfidences h now = Ok (h', Some r) ->
  rawPanel r = Shown (rawTranscript r)
  /\ compactLine r = Shown (rawTranscript r)
  /\ polishedPanel r <> NoSpeechDetected
  /\ (forallb (fun w => isFiller w || isRepeat w) (wordConfidences r) = true ->
      polishedPanel r = Shown (rawTranscript r))
  /\ (clarityPanel r = NoWordsDetected <-> wordConfidences r = [])
  /\ (wordConfidences r <> [] ->
      clarityPanel r = ConfidenceWords (wordConfidences r)).
Proof.
  rewrite stop_value. intros [= _ Hr].
  destruct (bestTranscript h =? "")%string eqn:E; [discriminate|].
  injection Hr as <-.
  assert (Hraw : rawPanel (resultOf Math_sqrt createEmptyConfidences h now)
                 = Shown (bestTranscript h)).
  { unfold rawPanel, resultOf. cbn [rawTranscript]. now rewrite E. }
  split; [exact Hraw|]. split; [exact Hraw|]. split; [|split; [|split]].
  - unfold polishedPanel.
    destruct (cleanedTranscript
                (resultOf Math_sqrt createEmptyConfidences h now) =? "")%string;
      [rewrite Hraw|]; intros H; discriminate H.
  - intros Hall. unfold polishedPanel.
    unfold resultOf at 1. cbn [cleanedTranscript].
    unfold resultOf in Hall. cbn [wordConfidences] in Hall.
    rewrite (cleanOf_flagged _ Hall). exact Hraw.
  - unfold clarityPanel.
    destruct (wordConfidences _) as [|w ws]; simpl; split; congruence.
  - unfold clarityPanel.
    destruct (wordConfidences _) as [|w ws]; simpl; congruence.
Qed.

End PanelFacts.


(** ** The life cycle of a session *)

Lemma append_empty_r (s : string) : (s ++ "")%string = s.
Proof.
  induction s as [|c s IH]; simpl; [reflexivity|]. now rewrite IH.
Qed.

Lemma append_assoc (a b c : string) :
  ((a ++ b) ++ c)%string = (a ++ (b ++ c))%string.
Proof.
  induction a as [|x a IH]; simpl; [reflexivity|]. now rewrite IH.
Qed.

Lemma scanResults_closed (rs : list RecognitionResult) :
  forall interimText finalText snapshots,
    scanResults rs interimText finalText snapshots
    = ((interimText ++ interimOf rs)%string,
       (finalText ++ finalOf rs)%string,
       snapshots ++ map snapshotOf rs).
Proof.
  induction rs as [|r rs IH]; intros i f s; simpl.
  - now rewrite !append_empty_r, app_nil_r.
  - unfold snapshotOf at 1. destruct (isFinal r); rewrite IH.
    + now rewrite !append_assoc, <- app_assoc.
    + now rewrite append_assoc, <- app_assoc.
Qed.

(** X18.  One recognition event: the results from [resultIndex] on are
    given to the tracker in their order, each with its final flag; the
    final chunks, each followed by a space, are appended to the final
    transcript, which is never shortened; the displayed text is the new
    final transcript followed by the interim chunks, and it is what the
    [onInterimResult] callback receives. *)
Theorem onresult_accumulates (options : Options) (h : Hook)
    (event : SpeechRecognitionEvent) :
  let rs := skipn (resultIndex event) (results event) in
  let h' := fst (fst (onresult options h event)) in
  finalTranscriptRef h' = (finalTranscriptRef h ++ finalOf rs)%string
  /\ interimTranscript h' = (finalTranscriptRef h' ++ interimOf rs)%string
  /\ snd (fst (onresult options h event))
     = (if onInterimResult options
        then [CallOnInterimResult (interimTranscript h')] else [])
  /\ snd (onresult options h event)
     = match wordTrackerRef h with
       | Some _ => map snapshotOf rs
       | None => []
       end.
Proof.
  cbv zeta. unfold onresult. rewrite scanResults_closed. simpl.
  destruct (finalOf _ =? "")%string eqn:E.
  - apply String.eqb_eq in E. rewrite E, append_empty_r. repeat split.
  - repeat split.
Qed.

Lemma blank_finalOf (rs : list RecognitionResult) (r : RecognitionResult) :
  In r rs -> isFinal r = true -> blank (transcript r) = false ->
  blank (finalOf rs) = false.
Proof.
  induction rs as [|x rs IH]; intros Hin Hf Hb; [contradiction|].
  simpl. destruct Hin as [-> | Hin].
  - rewrite Hf, blank_app, Hb. reflexivity.
  - destruct (isFinal x); [|now apply IH].
    rewrite blank_app. simpl. rewrite (IH Hin Hf Hb).
    now rewrite !andb_false_r.
Qed.

Section LifeCycleFacts.

Variable Math_sqrt : Q -> Q.
Variable createEmptyConfidences : string -> list WordConfidence.

(** The result depends on the hook through the two collaborators, the
    transcript and the start time only. *)
Lemma resultOf_ext (h g : Hook) (now : Q) :
  audioExtractorRef g = audioExtractorRef h ->
  wordTrackerRef g = wordTrackerRef h ->
  bestTranscript g = bestTranscript h ->
  startTimeRef g = startTimeRef h ->
  resultOf Math_sqrt createEmptyConfidences g now
  = resultOf Math_sqrt createEmptyConfidences h now.
Proof.
  unfold resultOf. now intros -> -> -> ->.
Qed.

(** X19.  Once an event has delivered a final result that is not white
    space only, [stop] returns a result: its raw transcript is the trimmed
    final transcript, which contains that event's final chunks. *)
Theorem final_result_makes_stop_succeed (options : Options) (h : Hook)
    (event : SpeechRecognitionEvent) (r : RecognitionResult) (now : Q) :
  In r (skipn (resultIndex event) (results event)) ->
  isFinal r = true ->
  blank (transcript r) = false ->
  let h' := fst (fst (onresult options h event)) in
  exists res,
    stop Math_sqrt createEmptyConfidences h' now = Ok (detach h', Some res)
    /\ rawTranscript res
       = Text.trim (finalTranscriptRef h
                    ++ finalOf (skipn (resultIndex event) (results event))).
Proof.
  intros Hin Hf Hb h'.
  assert (Hfinal : finalTranscriptRef h'
                   = (finalTranscriptRef h
                      ++ finalOf (skipn (resultIndex event) (results event)))%string).
  { unfold h', onresult. rewrite scanResults_closed. simpl.
    destruct (finalOf _ =? "")%string eqn:E; [|reflexivity].
    apply String.eqb_eq in E. now rewrite E, append_empty_r. }
  assert (Hnb : blank (finalTranscriptRef h') = false).
  { rewrite Hfinal, blank_app, (blank_finalOf _ r Hin Hf Hb).
    apply andb_false_r. }
  assert (Htrim : (Text.trim (finalTranscriptRef h') =? "")%string = false).
  { apply String.eqb_neq. intros E. apply trim_blank in E. congruence. }
  rewrite stop_value.
  assert (Hbest : bestTranscript h' = Text.trim (finalTranscriptRef h')).
  { unfold bestTranscript, Text.or_else. now rewrite Htrim. }
  rewrite Hbest, Htrim. eexists. split; [reflexivity|].
  unfold resultOf. cbn [rawTranscript]. now rewrite Hbest, Hfinal.
Qed.

(** X20.  After [stop] and after [abort] an end of the recognition is not
    followed by a restart; after a [start] that returned [true] it is. *)
Theorem restart_only_while_capturing (options : Options) (h : Hook)
    (extractor : AudioFeatureExtractor) (tracker : WordConfidenceTracker)
    (now : Q) :
  (forall h' r,
     stop Math_sqrt createEmptyConfidences h now = Ok (h', r) ->
     onend h' = false /\ isAnalyzing h' = false)
  /\ onend (fst (abort h)) = false
  /\ onend (fst (fst (start options true extractor true tracker now h))) = true.
Proof.
  split; [|split; reflexivity].
  intros h' r. rewrite stop_value. intros [= <- _]. split; reflexivity.
Qed.

(** X21.  [abort] drops the audio extractor, the tracker and the interim
    text, but keeps the accumulated final transcript and the start time.
    A [stop] after an [abort] returns [null] when that transcript is white
    space only and otherwise a result whose raw transcript is the trimmed
    final transcript; what it returns depends on the final transcript and
    on the start time alone. *)
Theorem stop_after_abort (h : Hook) (now : Q) :
  let h1 := fst (abort h) in
  (blank (finalTranscriptRef h) = true ->
   stop Math_sqrt createEmptyConfidences h1 now = Ok (detach h1, None))
  /\ (blank (finalTranscriptRef h) = false ->
      exists r,
        stop Math_sqrt createEmptyConfidences h1 now = Ok (detach h1, Some r)
        /\ rawTranscript r = Text.trim (finalTranscriptRef h))
  /\ (forall (g : Hook) (r : option SpeechAnalysisResult),
        finalTranscriptRef g = finalTranscriptRef h ->
        startTimeRef g = startTimeRef h ->
        stop Math_sqrt createEmptyConfidences h1 now = Ok (detach h1, r) ->
        stop Math_sqrt createEmptyConfidences (fst (abort g)) now
        = Ok (detach (fst (abort g)), r)).
Proof.
  cbv zeta. rewrite stop_value.
  assert (Hbest : forall g, bestTranscript (fst (abort g))
                            = Text.trim (finalTranscriptRef g)).
  { intros g. unfold bestTranscript, Text.or_else. simpl.
    now destruct (Text.trim (finalTranscriptRef g) =? "")%string eqn:E;
      [apply String.eqb_eq in E|]. }
  rewrite Hbest. split; [|split].
  - intros Hb. apply trim_blank in Hb. now rewrite Hb.
  - intros Hb.
    assert (Hne : (Text.trim (finalTranscriptRef h) =? "")%string = false).
    { apply String.eqb_neq. intros E. apply trim_blank in E. congruence. }
    rewrite Hne. eexists. split; [reflexivity|].
    unfold resultOf. cbn [rawTranscript]. now rewrite Hbest.
  - intros g r Hf Ht [= <-]. rewrite stop_value, Hbest, Hf. do 2 f_equal.
    destruct (Text.trim (finalTranscriptRef h) =? "")%string; [reflexivity|].
    f_equal. apply resultOf_ext; try reflexivity.
    + rewrite (Hbest g), Hf. symmetry. apply (Hbest h).
    + exact Ht.
Qed.

(** X22.  [start] clears what an earlier session left: when the platform
    is supported, a [stop] that follows [start] without any recognition
    result in between returns [null], also when the audio extractor failed
    to start; [isAnalyzing] is set by [start] in both cases. *)
Theorem stop_right_after_start (options : Options) (h : Hook)
    (extractor : AudioFeatureExtractor) (extractorStarts : bool)
    (tracker : WordConfidenceTracker) (now later : Q) :
  let h1 := fst (fst (start options true extractor extractorStarts tracker now h)) in
  isAnalyzing h1 = true
  /\ isAnalyzingRef h1 = true
  /\ snd (fst (start options true extractor extractorStarts tracker now h))
     = (if extractorStarts then Returned true else Rejected)
  /\ stop Math_sqrt createEmptyConfidences h1 later = Ok (detach h1, None).
Proof.
  cbv zeta. rewrite stop_value.
  destruct extractorStarts; repeat split.
Qed.

End LifeCycleFacts.


(** ** Browser notifications *)

(** X23.  [showNotification] returns [true] exactly when it hands a
    notification to the browser, and it does so exactly when notifications
    are supported, the permission is granted (already, or by the answer to
    the request it makes when the permission is still [default]) and the
    constructor does not throw.  The user is asked exactly when
    notifications are supported and the permission is [default]. *)
Theorem notification_shown_iff_granted (st : Notifier) (browser : Browser)
    (options : NotificationOptions) :
  let '(st', shown, effects) := showNotification st browser options in
  (shown = true <-> existsb isShow effects = true)
  /\ (shown = true <->
      notificationsSupported st = true
      /\ (permission st = perm_granted
          \/ (permission st = perm_default
              /\ requestAnswer browser = Some perm_granted))
      /\ constructorThrows browser = false)
  /\ (existsb isAsk effects = true <->
      notificationsSupported st = true /\ permission st = perm_default).
Proof.
  unfold showNotification, requestPermission.
  destruct st as [p sup], browser as [ans throws]. simpl.
  destruct sup; simpl.
  - destruct p; simpl.
    + destruct ans as [[| |]|]; simpl; destruct throws; simpl;
        repeat split; try tauto; try discriminate;
        try (intros (_ & [H | [_ H]] & _); discriminate H);
        try (intros (_ & _ & H); discriminate H).
    + destruct throws; simpl; repeat split; try tauto; try discriminate;
        try (intros (_ & _ & H); discriminate H);
        try (intros [_ H]; discriminate H).
    + repeat split; try tauto; try discriminate;
        try (intros (_ & [H | [H _]] & _); discriminate H);
        try (intros [_ H]; discriminate H).
  - repeat split; try discriminate; try tauto;
      try (intros (H & _); discriminate H);
      try (intros [H _]; discriminate H).
Qed.

(** X24.  A refusal is remembered: when the user answers a request with
    [denied], the hook's permission becomes [denied], and the next
    [showNotification] neither asks again nor shows anything, whatever the
    browser would answer. *)
Theorem denied_is_remembered (st : Notifier) (b1 b2 : Browser)
    (o1 o2 : NotificationOptions) :
  notificationsSupported st = true ->
  permission st = perm_default ->
  requestAnswer b1 = Some perm_denied ->
  let st1 := fst (fst (showNotification st b1 o1)) in
  showNotification st b1 o1 = (st1, false, [AskPermission])
  /\ permission st1 = perm_denied
  /\ showNotification st1 b2 o2 = (st1, false, []).
Proof.
  destruct st as [p sup]. simpl. intros -> -> Hans.
  unfold showNotification, requestPermission. simpl. rewrite Hans. simpl.
  repeat split.
Qed.


(** ** The further properties at sample inputs *)

Lemma averagePauseDuration_bounds_witness :
  pauseCount (analyzeProsody sqrt_milli longPauseAudio) = 1
  /\ PAUSE_THRESHOLD_MS
     <= averagePauseDuration (analyzeProsody sqrt_milli longPauseAudio).
Proof.
  split; [reflexivity|].
  apply (proj2 (averagePauseDuration_bounds sqrt_milli longPauseAudio)).
  reflexivity.
Defined.


Lemma intonation_level_iff_small_magnitude_witness :
  exists e,
    In e (intonationPatterns (analyzeProsody sqrt_milli elevenAudio))
    /\ ie_type e = level
    /\ (ie_type e = level <-> magnitude e <= 10).
Proof.
  eexists. split; [|split].
  - vm_compute. left. reflexivity.
  - reflexivity.
  - apply (intonation_level_iff_small_magnitude sqrt_milli elevenAudio).
    vm_compute. left. reflexivity.
Defined.

Lemma all_silent_recording_witness :
  stressEventCount (analyzeProsody sqrt_milli silentAudio) = 0
  /\ intonationPatterns (analyzeProsody sqrt_milli silentAudio) = []
  /\ rhythmConsistency (analyzeProsody sqrt_milli silentAudio) = 50
  /\ speakingRate (analyzeProsody sqrt_milli silentAudio) = slow
  /\ pauseCount (analyzeProsody sqrt_milli silentAudio) <= 1.
Proof.
  apply (all_silent_recording sqrt_milli silentAudio);
    [discriminate | reflexivity].
Defined.

Lemma all_voiced_recording_witness :
  pauseCount (analyzeProsody sqrt_milli elevenAudio) = 0
  /\ longPauseCount (analyzeProsody sqrt_milli elevenAudio) = 0
  /\ averagePauseDuration (analyzeProsody sqrt_milli elevenAudio) = 0
  /\ rhythmConsistency (analyzeProsody sqrt_milli elevenAudio) = 50.
Proof.
  apply (all_voiced_recording sqrt_milli elevenAudio). reflexivity.
Defined.

Lemma fluency_scores_in_range_witness :
  0 <= overallFluencyScore
         (fluencyOf fillerWords haltingAudio haltingProsody 120000) <= 100
  /\ 0 <= fillerRatio
            (fluencyOf fillerWords haltingAudio haltingProsody 120000) <= 1.
Proof.
  destruct (fluency_scores_in_range fillerWords haltingAudio haltingProsody
              120000 _ (calculateFluency_Ok _ _ _ _))
    as (_ & Hs & Hr & _).
  split; assumption.
Defined.


Lemma more_pauses_lower_scores_witness :
  hesitationScore (fluencyOf plainWords risingAudio haltingProsody 15000)
  <= hesitationScore
       (fluencyOf plainWords risingAudio createEmptyProsodyMetrics 15000)
  /\ overallFluencyScore (fluencyOf plainWords risingAudio haltingProsody 15000)
     <= overallFluencyScore
          (fluencyOf plainWords risingAudio createEmptyProsodyMetrics 15000).
Proof.
  apply (more_pauses_lower_scores plainWords risingAudio
           createEmptyProsodyMetrics haltingProsody 15000).
  - apply Qle_bool_iff. reflexivity.
  - apply Qle_bool_iff. reflexivity.
  - apply calculateFluency_Ok.
  - apply calculateFluency_Ok.
Defined.

Lemma assessment_level_monotone_witness :
  (levelRank (a_level (getFluencyAssessment
                         (fluencyOf fillerWords haltingAudio haltingProsody 120000)))
   <= levelRank (a_level (getFluencyAssessment
                            (fluencyOf thirtyWords risingAudio
                               createEmptyProsodyMetrics 15000))))%nat.
Proof.
  apply assessment_level_monotone. apply Qle_bool_iff. reflexivity.
Defined.

Lemma score_bounds_penalties_witness :
  60 <= overallFluencyScore haltedMetrics
  /\ 5 * f_pauseCount haltedMetrics + 13 * f_longPauseCount haltedMetrics
     + 3 * fillerCount haltedMetrics + 4 * repetitionCount haltedMetrics
     <= 200 - 2 * overallFluencyScore haltedMetrics
  /\ f_pauseCount haltedMetrics = 1.
Proof.
  assert (Hs : 60 <= overallFluencyScore haltedMetrics)
    by (apply Qle_bool_iff; reflexivity).
  split; [exact Hs|]. split; [|reflexivity].
  exact (score_bounds_penalties sqrt_milli thirtyWords longPauseAudio 15000
           haltedMetrics (calculateFluency_Ok _ _ _ _) Hs).
Defined.

Lemma excellent_means_few_pauses_witness :
  a_level (getFluencyAssessment
             (fluencyOf thirtyWords risingAudio
                (analyzeProsody sqrt_milli risingAudio) 15000)) = excellent
  /\ f_longPauseCount
       (fluencyOf thirtyWords risingAudio
          (analyzeProsody sqrt_milli risingAudio) 15000) <= 2.
Proof.
  split; [reflexivity|].
  apply (excellent_means_few_pauses sqrt_milli thirtyWords risingAudio 15000).
  - apply calculateFluency_Ok.
  - reflexivity.
Defined.

Lemma stop_null_iff_blank_witness :
  stop sqrt_milli sampleEmptyConfidences silentHook 16000
  = Ok (detach silentHook, None)
  /\ stop sqrt_milli sampleEmptyConfidences nbspHook 16000
     = Ok (detach nbspHook, None)
  /\ exists r,
       stop sqrt_milli sampleEmptyConfidences heardHook 16000
       = Ok (detach heardHook, Some r)
       /\ rawTranscript r <> ""%string.
Proof.
  split; [|split].
  - apply (proj1 (stop_null_iff_blank sqrt_milli sampleEmptyConfidences
                    silentHook 16000)).
    split; reflexivity.
  - apply (proj1 (stop_null_iff_blank sqrt_milli sampleEmptyConfidences
                    nbspHook 16000)).
    split; reflexivity.
  - apply (proj2 (stop_null_iff_blank sqrt_milli sampleEmptyConfidences
                    heardHook 16000)).
    reflexivity.
Defined.

Lemma clarity_score_in_range_witness :
  0 <= overallClarityScore
         (resultOf sqrt_milli sampleEmptyConfidences heardHook 16000) <= 100.
Proof.
  apply (clarity_score_in_range sqrt_milli sampleEmptyConfidences heardHook
           (detach heardHook) 16000).
  - apply stop_value.
  - repeat constructor; apply Qle_bool_iff; reflexivity.
  - apply Qle_bool_iff. reflexivity.
Defined.

Lemma feedback_panels_of_stop_result_witness :
  rawPanel (resultOf sqrt_milli sampleEmptyConfidences heardHook 16000)
  = Shown "well yes"
  /\ polishedPanel (resultOf sqrt_milli sampleEmptyConfidences heardHook 16000)
     <> NoSpeechDetected
  /\ clarityPanel (resultOf sqrt_milli sampleEmptyConfidences heardHook 16000)
     = ConfidenceWords plainWords
  /\ clarityPanel (resultOf sqrt_milli sampleEmptyConfidences wordlessHook 16000)
     = NoWordsDetected.
Proof.
  destruct (feedback_panels_of_stop_result sqrt_milli sampleEmptyConfidences
              heardHook (detach heardHook) 16000 _ (stop_value _ _ _ _))
    as (H1 & _ & H2 & _ & _ & H3).
  destruct (feedback_panels_of_stop_result sqrt_milli sampleEmptyConfidences
              wordlessHook (detach wordlessHook) 16000 _ (stop_value _ _ _ _))
    as (_ & _ & _ & _ & H4 & _).
  split; [exact H1|]. split; [exact H2|]. split.
  - apply H3. discriminate.
  - apply H4. reflexivity.
Defined.

Lemma final_result_makes_stop_succeed_witness :
  exists res,
    stop sqrt_milli sampleEmptyConfidences
      (fst (fst (onresult sampleOptions freshHook sampleEvent))) 16000
    = Ok (detach (fst (fst (onresult sampleOptions freshHook sampleEvent))),
          Some res)
    /\ rawTranscript res = "well yes"%string.
Proof.
  destruct (final_result_makes_stop_succeed sqrt_milli sampleEmptyConfidences
              sampleOptions freshHook sampleEvent
              (mkRecResult true "well yes") 16000)
    as (res & Hstop & Hraw).
  - left. reflexivity.
  - reflexivity.
  - reflexivity.
  - exists res. split; [exact Hstop | exact Hraw].
Defined.

Lemma denied_is_remembered_witness :
  showNotification askingNotifier denyingBrowser readyNotification
  = ({| permission := perm_denied; notificationsSupported := true |},
     false, [AskPermission])
  /\ showNotification
       {| permission := perm_denied; notificationsSupported := true |}
       grantingBrowser readyNotification
     = ({| permission := perm_denied; notificationsSupported := true |},
        false, []).
Proof.
  destruct (denied_is_remembered askingNotifier denyingBrowser grantingBrowser
              readyNotification readyNotification eq_refl eq_refl eq_refl)
    as (H1 & _ & H3).
  split; [exact H1 | exact H3].
Defined.

Lemma prosody_scores_in_range_witness :
  0 <= rhythmConsistency (analyzeProsody sqrt_milli risingAudio) <= 100
  /\ 0 <= pitchVariation (analyzeProsody sqrt_milli risingAudio) <= 100.
Proof.
  destruct (prosody_scores_in_range sqrt_milli risingAudio) as (Hr & Hp1 & Hp0).
  split; [exact Hr|]. split; [|exact Hp1].
  apply Hp0. apply Qle_bool_iff. reflexivity.
Defined.

Lemma cleaned_transcript_is_tidy_witness :
  cleanOf fillerWords = "yes"%string
  /\ cleanOf [mkWord "um" 90 true false; mkWord "um" 80 true true] = ""%string.
Proof.
  split; [reflexivity|].
  apply (proj2 (proj2 (proj2 (cleaned_transcript_is_tidy
                                [mkWord "um" 90 true false;
                                 mkWord "um" 80 true true])))).
  reflexivity.
Defined.

Lemma restart_only_while_capturing_witness :
  onend heardHook = true
  /\ onend (detach heardHook) = false
  /\ onend (fst (abort heardHook)) = false.
Proof.
  destruct (restart_only_while_capturing sqrt_milli sampleEmptyConfidences
              sampleOptions heardHook (mkExtractor risingAudio)
              (mkTracker (fun _ => plainWords)) 16000) as (Hstop & Habort & _).
  split; [reflexivity|]. split; [|exact Habort].
  apply (Hstop (detach heardHook) _ (stop_value _ _ _ _)).
Defined.

Lemma stop_after_abort_witness :
  exists r,
    stop sqrt_milli sampleEmptyConfidences (fst (abort heardHook)) 16000
    = Ok (detach (fst (abort heardHook)), Some r)
    /\ rawTranscript r = "well yes"%string.
Proof.
  destruct (proj1 (proj2 (stop_after_abort sqrt_milli sampleEmptyConfidences
                            heardHook 16000)) eq_refl)
    as (r & Hstop & Hraw).
  exists r. split; [exact Hstop | exact Hraw].
Defined.

Lemma notification_shown_iff_granted_witness :
  snd (fst (showNotification askingNotifier grantingBrowser readyNotification))
  = true
  /\ snd (fst (showNotification askingNotifier denyingBrowser readyNotification))
     = false.
Proof.
  pose proof (notification_shown_iff_granted askingNotifier grantingBrowser
                readyNotification) as H.
  split; [|reflexivity].
  destruct (showNotification askingNotifier grantingBrowser readyNotification)
    as [[st' shown] effects].
  destruct H as (_ & H & _). apply H.
  split; [reflexivity|]. split; [|reflexivity]. right. split; reflexivity.
Defined.
